(** * PhraseFinder: the vectorization-and-ranking engine of phrase_finder.ipynb

    The notebook defines three functions, [similarity], [phrase_vector] and
    [get_comparisons], over two globals: the word-embedding table
    [googledata_model] and the phrase list [interesting_phrases] (with
    [interesting_phrases_vectors] computed from it).  This file embeds them
    and settles the statements of the specification against them.

    Numbers.  numpy computes in binary64.  Here a float is an exact real
    number or one of the three special values of IEEE 754; rounding, overflow
    and the sign of zero are not modelled, the special values and the rules
    that produce them (0/0, x/0, inf-inf, 0*inf, comparison with NaN) are.

    Strings.  A Python [str] is modelled by [string], each [ascii] being a
    code point below 256. *)

From Stdlib Require Import String Ascii.
From Stdlib Require Import Reals Lra Lia ZArith List Bool Arith.
From Stdlib Require Import Permutation Sorted.
Import ListNotations.

Open Scope string_scope.
Open Scope list_scope.
Open Scope nat_scope.

(** ** Exceptions and results *)

Module Py.

(** The Python exceptions the three functions can raise. *)
Inductive exn : Type :=
| IndexError
| ValueError.

Inductive result (A : Type) : Type :=
| Ok (a : A)
| Raise (e : exn).

Arguments Ok {A} a.
Arguments Raise {A} e.

Definition bind {A B : Type} (r : result A) (k : A -> result B) : result B :=
  match r with
  | Ok a => k a
  | Raise e => Raise e
  end.

(** Runs [f] on the elements from left to right and stops at the first
    exception, as a [for] loop whose body may raise does. *)
Fixpoint for_each {A B : Type} (f : A -> result B) (l : list A)
  : result (list B) :=
  match l with
  | [] => Ok []
  | x :: xs =>
      bind (f x) (fun y => bind (for_each f xs) (fun ys => Ok (y :: ys)))
  end.

(** [l[i]] for a non-negative [i]. *)
Definition getitem {A : Type} (l : list A) (i : nat) : result A :=
  match nth_error l i with
  | Some x => Ok x
  | None => Raise IndexError
  end.

(** [range(number)]: empty when [number <= 0]. *)
Definition range (number : Z) : list nat := seq 0 (Z.to_nat number).

(** [enumerate(l)], as the list of its pairs. *)
Definition enumerate {A : Type} (l : list A) : list (nat * A) :=
  combine (seq 0 (length l)) l.

End Py.

Notation "x <- r ;; k" := (Py.bind r (fun x => k))
  (at level 61, r at next level, right associativity).

(** ** Floats *)

Module Float.

Local Open Scope R_scope.

Inductive float : Type :=
| Fin (x : R)
| PInf
| NInf
| NaN.

Definition is_zero (x : R) : bool :=
  if Req_dec_T x 0 then true else false.

Definition is_neg (x : R) : bool :=
  if Rlt_dec x 0 then true else false.

Definition neg (a : float) : float :=
  match a with
  | Fin x => Fin (- x)
  | PInf => NInf
  | NInf => PInf
  | NaN => NaN
  end.

Definition add (a b : float) : float :=
  match a, b with
  | NaN, _ | _, NaN => NaN
  | Fin x, Fin y => Fin (x + y)
  | PInf, NInf | NInf, PInf => NaN
  | PInf, _ | _, PInf => PInf
  | NInf, _ | _, NInf => NInf
  end.

(** The infinity with the sign of [x] when [x] is not zero, NaN when it
    is: the value of [x * inf] and of [x / 0] for a finite [x]. *)
Definition signed_inf (x : R) : float :=
  if is_zero x then NaN else if is_neg x then NInf else PInf.

Definition mul (a b : float) : float :=
  match a, b with
  | NaN, _ | _, NaN => NaN
  | Fin x, Fin y => Fin (x * y)
  | Fin x, PInf | PInf, Fin x => signed_inf x
  | Fin x, NInf | NInf, Fin x => neg (signed_inf x)
  | PInf, PInf | NInf, NInf => PInf
  | PInf, NInf | NInf, PInf => NInf
  end.

Definition div (a b : float) : float :=
  match a, b with
  | NaN, _ | _, NaN => NaN
  | Fin x, Fin y => if is_zero y then signed_inf x else Fin (x / y)
  | Fin _, PInf | Fin _, NInf => Fin 0
  | PInf, Fin y => if is_neg y then NInf else PInf
  | NInf, Fin y => if is_neg y then PInf else NInf
  | PInf, PInf | PInf, NInf | NInf, PInf | NInf, NInf => NaN
  end.

Definition sqrt (a : float) : float :=
  match a with
  | Fin x => if is_neg x then NaN else Fin (R_sqrt.sqrt x)
  | PInf => PInf
  | NInf => NaN
  | NaN => NaN
  end.

(** [a < b]; false as soon as an operand is NaN. *)
Definition ltb (a b : float) : bool :=
  match a, b with
  | NaN, _ | _, NaN => false
  | Fin x, Fin y => if Rlt_dec x y then true else false
  | NInf, NInf => false
  | NInf, _ => true
  | PInf, _ => false
  | Fin _, PInf => true
  | Fin _, NInf => false
  end.

(** [a >= b]; false as soon as an operand is NaN. *)
Definition geb (a b : float) : bool :=
  match a, b with
  | NaN, _ | _, NaN => false
  | Fin x, Fin y => if Rle_dec y x then true else false
  | PInf, _ => true
  | _, NInf => true
  | _, _ => false
  end.

Definition of_nat (n : nat) : float := Fin (INR n).

End Float.

Import Float.

(** ** Strings: [str.lower] and [str.split] *)

Module Str.

(** [str.isspace] on one code point below 256: TAB, LF, VT, FF, CR, the
    four separators FS, GS, RS, US, the space, NEL and the no-break
    space. *)
Definition isspace (c : ascii) : bool :=
  let n := nat_of_ascii c in
  ((9 <=? n) && (n <=? 13)) || ((28 <=? n) && (n <=? 32))
  || (n =? 133) || (n =? 160).

(** The code points below 256 that [str.lower] changes: A-Z, and the
    capital letters of Latin-1 (the multiplication sign, 215, is not
    one). *)
Definition isupper (c : ascii) : bool :=
  let n := nat_of_ascii c in
  ((65 <=? n) && (n <=? 90))
  || ((192 <=? n) && (n <=? 222) && negb (n =? 215)).

Definition lower_char (c : ascii) : ascii :=
  if isupper c then ascii_of_nat (nat_of_ascii c + 32) else c.

(** [s.lower()] *)
Fixpoint lower (s : string) : string :=
  match s with
  | EmptyString => EmptyString
  | String c rest => String (lower_char c) (lower rest)
  end.

(** The scan of [s.split()]: [word] is the word being read, empty between
    words; a whitespace character closes it, any other extends it. *)
Fixpoint split_scan (word : string) (s : string) : list string :=
  match s with
  | EmptyString =>
      match word with
      | EmptyString => []
      | _ => [word]
      end
  | String c rest =>
      if isspace c then
        match word with
        | EmptyString => split_scan EmptyString rest
        | _ => word :: split_scan EmptyString rest
        end
      else split_scan (word ++ String c EmptyString) rest
  end.

(** [s.split()]: the maximal runs of non-whitespace characters. *)
Definition split (s : string) : list string := split_scan EmptyString s.

Fixpoint chars (s : string) : list ascii :=
  match s with
  | EmptyString => []
  | String c rest => c :: chars rest
  end.

(** A string without whitespace. *)
Definition clean (w : string) : Prop :=
  Forall (fun c => isspace c = false) (chars w).

(** A string that [lower] leaves as it is, character by character. *)
Definition lowercase (w : string) : Prop :=
  Forall (fun c => isupper c = false) (chars w).

(** [s.lstrip()]: the whitespace at the start is dropped. *)
Fixpoint lstrip (s : string) : string :=
  match s with
  | EmptyString => EmptyString
  | String c rest => if isspace c then lstrip rest else s
  end.

(** [s.rstrip()]: the whitespace at the end is dropped. *)
Fixpoint rstrip (s : string) : string :=
  match s with
  | EmptyString => EmptyString
  | String c rest =>
      match rstrip rest with
      | EmptyString => if isspace c then EmptyString else String c EmptyString
      | kept => String c kept
      end
  end.

(** [s.strip()] *)
Definition strip (s : string) : string := rstrip (lstrip s).

(** The first and the last character of a string, if it has one. *)
Definition first_char (s : string) : option ascii :=
  match s with
  | EmptyString => None
  | String c _ => Some c
  end.

Fixpoint last_char (s : string) : option ascii :=
  match s with
  | EmptyString => None
  | String c EmptyString => Some c
  | String _ rest => last_char rest
  end.

End Str.

(** ** The regular expression of [strip] *)

Module Re.

Definition newline : ascii := ascii_of_nat 10.
Definition open_bracket : ascii := ascii_of_nat 91.
Definition close_bracket : ascii := ascii_of_nat 93.

(** A closing bracket occurs in [s] before the first newline: from here
    [.*\]] has a match, the dot matching every character but the
    newline. *)
Fixpoint closes_on_line (s : string) : bool :=
  match s with
  | EmptyString => false
  | String c rest =>
      if Ascii.eqb c newline then false
      else if Ascii.eqb c close_bracket then true
      else closes_on_line rest
  end.

(** [re.compile('\[.*\]').sub('', s)], read from the left.  Outside a
    match, an opening bracket with a closing bracket later on its line
    starts one, and any other character is kept.  The star is greedy: the
    match runs to the last closing bracket of the line, and the search
    goes on after it. *)
Fixpoint sub_scan (inside : bool) (s : string) : string :=
  match s with
  | EmptyString => EmptyString
  | String c rest =>
      if inside then
        if Ascii.eqb c close_bracket && negb (closes_on_line rest)
        then sub_scan false rest
        else sub_scan true rest
      else
        if Ascii.eqb c open_bracket && closes_on_line rest
        then sub_scan true rest
        else String c (sub_scan false rest)
  end.

Definition sub_brackets (s : string) : string := sub_scan false s.

(** Some opening bracket of [s] has a closing bracket later on its line:
    the expression has a match in [s]. *)
Fixpoint has_match (s : string) : bool :=
  match s with
  | EmptyString => false
  | String c rest =>
      (Ascii.eqb c open_bracket && closes_on_line rest) || has_match rest
  end.

End Re.

(** ** [strip] *)

(** [str(x)] for [x] a string of the document or None. *)
Definition py_str (x : option string) : string :=
  match x with
  | Some s => s
  | None => "None"
  end.

(** [strip(phrase)], on the value of [phrase.string], which is None for a
    tag that does not hold one string:
    [out = str(phrase.string)], [out = hard_bracket_re.sub('', out)],
    [out = out.strip()]. *)
Definition strip (phrase_string : option string) : string :=
  let out := py_str phrase_string in
  let out := Re.sub_brackets out in
  let out := Str.strip out in
  out.

(** [list(map(strip, phrase_list))], the list that is pickled and read
    back as [interesting_phrases]. *)
Definition stripped_list (phrase_list : list (option string)) : list string :=
  map strip phrase_list.

(** ** numpy on one-dimensional arrays *)

Module Np.

Definition ndarray := list float.

(** [numpy.zeros(n)] *)
Definition zeros (n : nat) : ndarray := repeat (Fin 0) n.

(** [numpy.add(a, b)] on two arrays of the same length, which the two
    arguments of the one call in [phrase_vector] are: each has 300
    components. *)
Fixpoint add (a b : ndarray) : ndarray :=
  match a, b with
  | x :: a', y :: b' => Float.add x y :: add a' b'
  | _, _ => []
  end.

Definition sum (a : ndarray) : float := fold_right Float.add (Fin 0) a.

Fixpoint products (a b : ndarray) : ndarray :=
  match a, b with
  | x :: a', y :: b' => Float.mul x y :: products a' b'
  | _, _ => []
  end.

(** [numpy.inner(a, b)]: the sum of the products; arrays of different
    lengths are refused with a ValueError. *)
Definition inner (a b : ndarray) : Py.result float :=
  if length a =? length b then Py.Ok (sum (products a b))
  else Py.Raise Py.ValueError.

(** [numpy.linalg.norm(a)]: the square root of the sum of the squares. *)
Definition norm (a : ndarray) : float :=
  Float.sqrt (sum (products a a)).

(** [a * k] and [a / k] for a scalar [k]. *)
Definition scale (a : ndarray) (k : float) : ndarray :=
  map (fun x => Float.mul x k) a.

Definition divide (a : ndarray) (k : float) : ndarray :=
  map (fun x => Float.div x k) a.

End Np.

(** ** The embedding table *)

(** The dimension of the vectors of the GoogleNews model. *)
Definition D : nat := 300.

(** A loaded [KeyedVectors]: [kv_get w] is the vector of the word [w], or
    [None] where [googledata_model[w]] raises KeyError.  The vectors are the
    rows of one matrix of [D] columns, and their components are finite. *)
Record KeyedVectors : Type := {
  kv_get : string -> option (list R);
  kv_dim : forall w v, kv_get w = Some v -> length v = D
}.

(** ** [sorted] *)

Section Sorted.

Context {A : Type} (key : A -> float).

(** [x] goes before the first element whose key is not below its own:
    only [<] is used on the keys, as Python's sort does, and an element
    never passes one it does not beat. *)
Fixpoint insert (x : A) (l : list A) : list A :=
  match l with
  | [] => [x]
  | y :: ys =>
      if Float.ltb (key y) (key x) then y :: insert x ys
      else x :: y :: ys
  end.

(** [sorted(l, key = key)]: the stable sort by [<] on the keys.  Where
    the keys are totally ordered, which floats without NaN are, a stable
    sort has one possible result.  With NaN among the keys the result
    depends on the algorithm; CPython's first looks for the longest run
    without a descent from the left, and returns the list as it is when
    this run is the whole list, and so does this sort
    ([sorted_ascending_run] below). *)
Definition sorted (l : list A) : list A := fold_right insert [] l.

(** No element is below the one before it, by [<] on the keys. *)
Fixpoint ascending_run (l : list A) : bool :=
  match l with
  | x :: (y :: _) as rest =>
      negb (Float.ltb (key y) (key x)) && ascending_run rest
  | _ => true
  end.

End Sorted.

(** ** The three functions of the notebook *)

Section PhraseFinder.

(** [parsing.preprocessing.STOPWORDS], as its membership test. *)
Variable stopwords : string -> bool.

Variable googledata_model : KeyedVectors.

(** [numpy.inner(vector1, vector2) /
     (numpy.linalg.norm(vector1) * numpy.linalg.norm(vector2))] *)
Definition similarity (vector1 vector2 : Np.ndarray) : Py.result float :=
  i <- Np.inner vector1 vector2 ;;
  Py.Ok (Float.div i (Float.mul (Np.norm vector1) (Np.norm vector2))).

(** [[word for word in phrase.lower().split()
      if word not in stopwords or True]] *)
Definition phrase_words (phrase : string) : list string :=
  filter (fun word => negb (stopwords word) || true)
         (Str.split (Str.lower phrase)).

(** The body of the [try]: the vector of the table, or [numpy.zeros(300,)]
    when the lookup raises. *)
Definition word_vector (word : string) : Np.ndarray :=
  match kv_get googledata_model word with
  | Some v => map Fin v
  | None => Np.zeros 300
  end.

(** The sum starts from [numpy.zeros((300,))], each word adds
    [numpy.add(word_vector, phrase_vector)], and the result is
    [phrase_vector * 1/len(phrase_words)], which Python reads as
    [(phrase_vector * 1) / len(phrase_words)]. *)
Definition phrase_vector (phrase : string) : Np.ndarray :=
  let phrase_words := phrase_words phrase in
  let phrase_vector :=
    fold_left (fun phrase_vector word =>
                 Np.add (word_vector word) phrase_vector)
              phrase_words (Np.zeros 300) in
  Np.divide (Np.scale phrase_vector (Fin 1))
            (Float.of_nat (length phrase_words)).

(** The corpus, in the order of the source list. *)
Variable interesting_phrases : list string.

(** [list(map(phrase_vector, interesting_phrases))]: a list of Python
    objects, [None] standing for Python's None. *)
Definition interesting_phrases_vectors : list (option Np.ndarray) :=
  map (fun phrase => Some (phrase_vector phrase)) interesting_phrases.

(** [[item for item in enumerate(interesting_phrases_vectors)
      if item[-1] is not None]] *)
Definition numbered_vectors : list (nat * Np.ndarray) :=
  flat_map (fun item : nat * option Np.ndarray =>
              match snd item with
              | Some v => [(fst item, v)]
              | None => []
              end)
           (Py.enumerate interesting_phrases_vectors).

(** The first loop: each vector is replaced by its similarity to the
    vector of the query. *)
Definition scored_vectors (phrase : string)
  : Py.result (list (nat * float)) :=
  let vector_to_compare := phrase_vector phrase in
  Py.for_each
    (fun vector : nat * Np.ndarray =>
       s <- similarity (snd vector) vector_to_compare ;;
       Py.Ok (fst vector, s))
    numbered_vectors.

(** [sorted(numbered_vectors, key = lambda item : -item[-1])] *)
Definition sorted_vectors (phrase : string)
  : Py.result (list (nat * float)) :=
  scored <- scored_vectors phrase ;;
  Py.Ok (sorted (fun item => Float.neg (snd item)) scored).

(** The second loop appends
    [interesting_phrases[sorted_vectors[index][0]]] for each [index] of
    [range(number)]; an exception leaves no output. *)
Definition get_comparisons (phrase : string) (number : Z)
  : Py.result (list string) :=
  sorted_vectors <- sorted_vectors phrase ;;
  Py.for_each
    (fun index =>
       item <- Py.getitem sorted_vectors index ;;
       Py.getitem interesting_phrases (fst item))
    (Py.range number).

End PhraseFinder.

Arguments similarity vector1 vector2 : simpl never.

(** ** Real vectors

    The operations on arrays whose components are all finite are the
    operations on lists of reals. *)

Module RVec.

Local Open Scope R_scope.

Fixpoint add (a b : list R) : list R :=
  match a, b with
  | x :: a', y :: b' => (x + y) :: add a' b'
  | _, _ => []
  end.

Definition sum (a : list R) : R := fold_right Rplus 0 a.

Fixpoint products (a b : list R) : list R :=
  match a, b with
  | x :: a', y :: b' => (x * y) :: products a' b'
  | _, _ => []
  end.

Definition dot (a b : list R) : R := sum (products a b).

Definition norm (a : list R) : R := R_sqrt.sqrt (dot a a).

(** Cosine of the angle of two real vectors. *)
Definition cosine (a b : list R) : R := dot a b / (norm a * norm b).

End RVec.

(** ** What the specification calls the arithmetic mean *)

Section Mean.

Local Open Scope R_scope.

Variable googledata_model : KeyedVectors.

(** The vector a token contributes: its embedding, or the zero vector of
    dimension [D] when the table does not know it. *)
Definition token_vector (token : string) : list R :=
  match kv_get googledata_model token with
  | Some v => v
  | None => repeat 0 D
  end.

(** Component [i] of the mean of [vs]: the sum of the components [i],
    divided by the number of vectors. *)
Definition mean_component (vs : list (list R)) (i : nat) : R :=
  RVec.sum (map (fun v => nth i v 0) vs) / INR (length vs).

Definition arithmetic_mean (vs : list (list R)) : list R :=
  map (mean_component vs) (seq 0 D).

(** The accumulator of the loop of [phrase_vector], on reals. *)
Definition accumulate (ws : list string) (acc : list R) : list R :=
  fold_left (fun acc w => RVec.add (token_vector w) acc) ws acc.

End Mean.

(** ** Scores and the order of the result *)

(** The value [similarity] computes when [numpy.inner] accepts its
    arguments. *)
Definition score (vector1 vector2 : Np.ndarray) : float :=
  Float.div (Np.sum (Np.products vector1 vector2))
            (Float.mul (Np.norm vector1) (Np.norm vector2)).

(** An array whose norm is a real number other than zero. *)
Definition nonzero_norm (v : Np.ndarray) : Prop :=
  exists r : R, Np.norm v = Fin r /\ r <> 0%R.

(** An array whose norm is zero. *)
Definition zero_norm (v : Np.ndarray) : Prop := Np.norm v = Fin 0%R.

(** The order of the result on real scores: a higher score first, and the
    lower index first among equal scores. *)
Definition precedes (a b : nat * R) : Prop :=
  (snd b < snd a)%R \/ (snd a = snd b /\ fst a < fst b).

(** The same on floats, with the comparison of the floats. *)
Definition ranked_before (a b : nat * float) : Prop :=
  Float.geb (snd a) (snd b) = true /\ (snd a = snd b -> fst a < fst b).

(** The scores of a sequence never go up from an entry to the next. *)
Definition descending (l : list (nat * float)) : Prop :=
  forall i a b,
    nth_error l i = Some a -> nth_error l (S i) = Some b ->
    Float.geb (snd a) (snd b) = true.

(** The key of [sorted] in the notebook, on a real score. *)
Definition minus_score (item : nat * R) : float := Fin (- snd item)%R.

(** A float that is zero or NaN: what a zero array leaves of a product. *)
Definition zero_or_nan (x : float) : Prop :=
  x = NaN \/ exists r : R, x = Fin r /\ r = 0%R.

(** The real components of an array; a special value counts for zero. *)
Definition reals (v : Np.ndarray) : list R :=
  map (fun x => match x with Fin r => r | _ => 0%R end) v.

(** A pair of an index and a real score, as a pair of the notebook. *)
Definition fin_item (item : nat * R) : nat * float :=
  (fst item, Fin (snd item)).

Section Ranking.

Variable stopwords : string -> bool.
Variable googledata_model : KeyedVectors.
Variable interesting_phrases : list string.
Variable phrase : string.

(** The numbered scores the first loop of [get_comparisons] leaves in
    [numbered_vectors] when no similarity raises. *)
Definition scores : list (nat * float) :=
  map (fun item : nat * Np.ndarray =>
         (fst item,
          score (snd item)
                (phrase_vector stopwords googledata_model phrase)))
      (Py.enumerate
         (map (phrase_vector stopwords googledata_model)
              interesting_phrases)).

(** The list [sorted_vectors] is bound to in that case. *)
Definition ranking : list (nat * float) :=
  sorted (fun item => Float.neg (snd item)) scores.

(** The phrase an entry of the ranking stands for. *)
Definition phrase_of (item : nat * float) : string :=
  nth (fst item) interesting_phrases EmptyString.

End Ranking.

(** ** A small table for the examples

    Two known words, with orthogonal unit vectors; every other word is
    unknown. *)

Definition unit_vector (k : nat) : list R :=
  map (fun i => if i =? k then 1%R else 0%R) (seq 0 D).

Definition toy_get (w : string) : option (list R) :=
  if String.eqb w "happy" then Some (unit_vector 0)
  else if String.eqb w "sad" then Some (unit_vector 1)
  else None.

Definition toy_model : KeyedVectors.
Proof.
  refine {| kv_get := toy_get |}.
  intros w v. unfold toy_get.
  destruct (String.eqb w "happy");
    [ | destruct (String.eqb w "sad") ];
    intros H;
    [ injection H as <- | injection H as <- | discriminate H ];
    unfold unit_vector; rewrite length_map, length_seq; reflexivity.
Defined.

(** The same table with one more key, which is not in lower case. *)
Definition toy_caps_get (w : string) : option (list R) :=
  if String.eqb w "Happy" then Some (unit_vector 2) else toy_get w.

Definition toy_caps_model : KeyedVectors.
Proof.
  refine {| kv_get := toy_caps_get |}.
  intros w v. unfold toy_caps_get.
  destruct (String.eqb w "Happy"); [|apply (kv_dim toy_model)].
  intros H. injection H as <-.
  unfold unit_vector; rewrite length_map, length_seq; reflexivity.
Defined.

(** No stopword at all, and the stopword list of the three words below. *)
Definition no_stopwords : string -> bool := fun _ => false.

Definition some_stopwords : string -> bool :=
  fun w => String.eqb w "a" || String.eqb w "the" || String.eqb w "of".

(** * Properties *)

(** ** Floats *)

Section FloatFacts.

Local Open Scope R_scope.

Lemma is_zero_true (x : R) : x = 0 -> Float.is_zero x = true.
Proof.
  intros ->. unfold Float.is_zero. destruct (Req_dec_T 0 0); congruence.
Qed.

Lemma is_zero_false (x : R) : x <> 0 -> Float.is_zero x = false.
Proof.
  intros H. unfold Float.is_zero. destruct (Req_dec_T x 0); congruence.
Qed.

Lemma is_neg_false (x : R) : 0 <= x -> Float.is_neg x = false.
Proof.
  intros H. unfold Float.is_neg. destruct (Rlt_dec x 0); [lra | reflexivity].
Qed.

Lemma div_fin (x y : R) :
  y <> 0 -> Float.div (Fin x) (Fin y) = Fin (x / y).
Proof. intros H. simpl. now rewrite is_zero_false. Qed.

Lemma div_zero_zero (x y : R) :
  x = 0 -> y = 0 -> Float.div (Fin x) (Fin y) = NaN.
Proof.
  intros Hx Hy. simpl. rewrite (is_zero_true y Hy).
  unfold Float.signed_inf. now rewrite (is_zero_true x Hx).
Qed.

Lemma sqrt_fin (x : R) :
  0 <= x -> Float.sqrt (Fin x) = Fin (R_sqrt.sqrt x).
Proof. intros H. simpl. now rewrite is_neg_false. Qed.

Lemma ltb_nan_r (a : float) : Float.ltb a NaN = false.
Proof. now destruct a. Qed.

Lemma geb_nan_r (a : float) : Float.geb a NaN = false.
Proof. now destruct a. Qed.

Lemma ltb_neg_fin (x y : R) :
  Float.ltb (Float.neg (Fin x)) (Float.neg (Fin y)) = true <-> y < x.
Proof.
  simpl. destruct (Rlt_dec (- x) (- y)); split; intros; try lra;
    try reflexivity; discriminate.
Qed.

Lemma geb_fin (x y : R) : Float.geb (Fin x) (Fin y) = true <-> y <= x.
Proof.
  simpl. destruct (Rle_dec y x); split; intros; try lra;
    try reflexivity; discriminate.
Qed.

End FloatFacts.

(** ** Arrays with finite components *)

Section FiniteArrays.

Local Open Scope R_scope.

Lemma zeros_fin (n : nat) : Np.zeros n = map Fin (repeat 0 n).
Proof. unfold Np.zeros. induction n; simpl; congruence. Qed.

Lemma add_fin (a b : list R) :
  Np.add (map Fin a) (map Fin b) = map Fin (RVec.add a b).
Proof.
  revert b. induction a as [|x a IH]; intros [|y b]; simpl; trivial.
  now rewrite IH.
Qed.

Lemma products_fin (a b : list R) :
  Np.products (map Fin a) (map Fin b) = map Fin (RVec.products a b).
Proof.
  revert b. induction a as [|x a IH]; intros [|y b]; simpl; trivial.
  now rewrite IH.
Qed.

Lemma sum_fin (a : list R) : Np.sum (map Fin a) = Fin (RVec.sum a).
Proof.
  unfold Np.sum, RVec.sum.
  induction a as [|x a IH]; simpl; trivial.
  now rewrite IH.
Qed.

Lemma dot_self_nonneg (a : list R) : 0 <= RVec.dot a a.
Proof.
  unfold RVec.dot, RVec.sum. induction a as [|x a IH]; simpl; [lra|].
  pose proof (Rle_0_sqr x) as Hx. unfold Rsqr in Hx. lra.
Qed.

Lemma inner_fin (a b : list R) :
  length a = length b ->
  Np.inner (map Fin a) (map Fin b) = Py.Ok (Fin (RVec.dot a b)).
Proof.
  intros H. unfold Np.inner. rewrite !length_map, H, Nat.eqb_refl.
  now rewrite products_fin, sum_fin.
Qed.

Lemma norm_fin (a : list R) : Np.norm (map Fin a) = Fin (RVec.norm a).
Proof.
  unfold Np.norm. rewrite products_fin, sum_fin.
  apply sqrt_fin, dot_self_nonneg.
Qed.

Lemma length_radd (a b : list R) :
  length a = length b -> length (RVec.add a b) = length b.
Proof.
  revert b. induction a as [|x a IH]; intros [|y b]; simpl; try congruence.
  intros H. f_equal. apply IH. congruence.
Qed.

Lemma nth_radd (a b : list R) (i : nat) :
  length a = length b ->
  nth i (RVec.add a b) 0 = nth i a 0 + nth i b 0.
Proof.
  revert b i. induction a as [|x a IH]; intros [|y b] i; simpl;
    try discriminate.
  - intros _. destruct i; lra.
  - intros H. destruct i; [reflexivity|]. apply IH. congruence.
Qed.

Lemma nth_repeat_zero (n i : nat) : nth i (repeat 0 n) 0 = 0.
Proof.
  revert i. induction n; intros [|i]; simpl; trivial.
Qed.

(** A sum of squares is zero only when each term is. *)
Lemma dot_self_zero (a : list R) :
  RVec.dot a a = 0 -> a = repeat 0 (length a).
Proof.
  unfold RVec.dot, RVec.sum. induction a as [|x a IH]; simpl; trivial.
  intros H. pose proof (dot_self_nonneg a) as Hn.
  unfold RVec.dot, RVec.sum in Hn.
  pose proof (Rle_0_sqr x) as Hx. unfold Rsqr in Hx.
  assert (Hx0 : x * x = 0) by lra.
  apply Rmult_integral in Hx0.
  assert (x = 0) by (destruct Hx0; assumption). subst x.
  rewrite <- IH; trivial. lra.
Qed.

Lemma norm_zero (a : list R) :
  RVec.norm a = 0 -> a = repeat 0 (length a).
Proof.
  intros H. apply dot_self_zero. unfold RVec.norm in H.
  apply sqrt_eq_0 in H; trivial. apply dot_self_nonneg.
Qed.

Lemma dot_zero_l (n : nat) (b : list R) : RVec.dot (repeat 0 n) b = 0.
Proof.
  unfold RVec.dot, RVec.sum. revert b.
  induction n; intros [|y b]; simpl; trivial.
  rewrite IHn. lra.
Qed.

Lemma dot_zero_r (n : nat) (a : list R) : RVec.dot a (repeat 0 n) = 0.
Proof.
  unfold RVec.dot, RVec.sum. revert n.
  induction a as [|x a IH]; intros [|n]; simpl; trivial.
  rewrite IH. lra.
Qed.

Lemma norm_zeros (n : nat) : RVec.norm (repeat 0 n) = 0.
Proof. unfold RVec.norm. rewrite dot_zero_l. apply sqrt_0. Qed.

End FiniteArrays.

(** ** Tokens *)

Section Tokens.

Import Str.

Lemma lower_char_not_upper (c : ascii) : isupper (lower_char c) = false.
Proof. destruct c as [[] [] [] [] [] [] [] []]; reflexivity. Qed.

Lemma chars_lower (s : string) : chars (lower s) = map lower_char (chars s).
Proof. induction s; simpl; congruence. Qed.

Lemma chars_app (s t : string) : chars (s ++ t) = (chars s ++ chars t)%list.
Proof. induction s; simpl; congruence. Qed.

Lemma append_not_empty (w : string) (c : ascii) :
  (w ++ String c EmptyString)%string <> EmptyString.
Proof. destruct w; discriminate. Qed.

Lemma clean_snoc (w : string) (c : ascii) :
  clean w -> isspace c = false -> clean (w ++ String c EmptyString).
Proof.
  unfold clean. intros Hw Hc. rewrite chars_app. apply Forall_app.
  split; trivial. simpl. auto.
Qed.

Lemma split_scan_tokens (s word : string) :
  clean word ->
  Forall (fun w => w <> EmptyString /\ clean w) (split_scan word s).
Proof.
  revert word. induction s as [|c s IH]; intros word Hw; simpl.
  - destruct word; auto. constructor; auto. split; [discriminate|trivial].
  - destruct (isspace c) eqn:Hc.
    + destruct word.
      * apply IH. constructor.
      * constructor; [split; [discriminate|trivial]|]. apply IH. constructor.
    + apply IH. now apply clean_snoc.
Qed.

(** Nothing but whitespace is dropped, and nothing is reordered. *)
Lemma split_scan_concat (s word : string) :
  concat (map chars (split_scan word s))
  = (chars word ++ filter (fun c => negb (isspace c)) (chars s))%list.
Proof.
  revert word. induction s as [|c s IH]; intros word; simpl.
  - destruct word; simpl; now rewrite ?app_nil_r.
  - destruct (isspace c) eqn:Hc; simpl.
    + destruct word; simpl; rewrite IH; simpl; now rewrite ?app_nil_r.
    + rewrite IH, chars_app. simpl. now rewrite <- app_assoc.
Qed.

Lemma split_scan_nil (s word : string) :
  split_scan word s = [] <->
  word = EmptyString /\ Forall (fun c => isspace c = true) (chars s).
Proof.
  revert word. induction s as [|c s IH]; intros word; simpl.
  - destruct word; split; intros H; auto; try discriminate.
    destruct H; discriminate.
  - destruct (isspace c) eqn:Hc.
    + destruct word.
      * rewrite IH. split; intros [H1 H2]; split; auto.
        now inversion H2.
      * split; [discriminate | intros [H _]; discriminate].
    + rewrite IH. split.
      * intros [H _]. now apply append_not_empty in H.
      * intros [_ H]. inversion H; congruence.
Qed.

Lemma split_nil (s : string) :
  split s = [] <-> Forall (fun c => isspace c = true) (chars s).
Proof. unfold split. rewrite split_scan_nil. tauto. Qed.

Lemma lower_keeps_space (c : ascii) : isspace (lower_char c) = isspace c.
Proof. destruct c as [[] [] [] [] [] [] [] []]; reflexivity. Qed.

Lemma filter_or_true {A : Type} (p : A -> bool) (l : list A) :
  filter (fun x => p x || true) l = l.
Proof.
  induction l as [|x l IH]; simpl; trivial.
  rewrite orb_true_r. now rewrite IH.
Qed.

Lemma phrase_words_split (stopwords : string -> bool) (phrase : string) :
  phrase_words stopwords phrase = split (lower phrase).
Proof. unfold phrase_words. apply filter_or_true. Qed.

(** A string made of whitespace only has no word, and only such a string
    has none. *)
Lemma phrase_words_nil (stopwords : string -> bool) (phrase : string) :
  phrase_words stopwords phrase = [] <->
  Forall (fun c => isspace c = true) (chars phrase).
Proof.
  rewrite phrase_words_split, split_nil, chars_lower, Forall_map.
  split; apply Forall_impl; intros c; now rewrite lower_keeps_space.
Qed.

End Tokens.

(** ** [phrase_vector] *)

Section PhraseVector.

Local Open Scope R_scope.

Variable stopwords : string -> bool.
Variable googledata_model : KeyedVectors.

Lemma token_vector_length (w : string) :
  length (token_vector googledata_model w) = D.
Proof.
  unfold token_vector.
  destruct (kv_get googledata_model w) as [v|] eqn:E.
  - now apply (kv_dim googledata_model w).
  - apply repeat_length.
Qed.

Lemma word_vector_fin (w : string) :
  word_vector googledata_model w = map Fin (token_vector googledata_model w).
Proof.
  unfold word_vector, token_vector.
  destruct (kv_get googledata_model w); reflexivity.
Qed.

Lemma loop_fin (ws : list string) (acc : list R) :
  fold_left (fun pv w => Np.add (word_vector googledata_model w) pv)
            ws (map Fin acc)
  = map Fin (accumulate googledata_model ws acc).
Proof.
  revert acc. induction ws as [|w ws IH]; intros acc; simpl; trivial.
  rewrite word_vector_fin, add_fin. apply IH.
Qed.

Lemma accumulate_length (ws : list string) (acc : list R) :
  length acc = D -> length (accumulate googledata_model ws acc) = D.
Proof.
  revert acc. induction ws as [|w ws IH]; intros acc H; simpl; trivial.
  apply IH. rewrite length_radd; trivial.
  now rewrite token_vector_length.
Qed.

Lemma accumulate_nth (ws : list string) (acc : list R) (i : nat) :
  length acc = D ->
  nth i (accumulate googledata_model ws acc) 0
  = RVec.sum (map (fun v => nth i v 0) (map (token_vector googledata_model) ws))
    + nth i acc 0.
Proof.
  unfold accumulate.
  revert acc. induction ws as [|w ws IH]; intros acc H; simpl.
  - unfold RVec.sum. simpl. lra.
  - rewrite IH.
    + rewrite nth_radd by (now rewrite token_vector_length).
      unfold RVec.sum. simpl. lra.
    + rewrite length_radd; trivial. now rewrite token_vector_length.
Qed.

Lemma scale_divide_fin (a : list R) (n : nat) :
  n <> 0%nat ->
  Np.divide (Np.scale (map Fin a) (Fin 1)) (Float.of_nat n)
  = map Fin (map (fun x => x * 1 / INR n) a).
Proof.
  intros Hn. unfold Np.divide, Np.scale, Float.of_nat.
  rewrite !map_map. apply map_ext. intros x.
  cbn [Float.mul]. apply div_fin. now apply not_0_INR.
Qed.

Lemma phrase_vector_length (phrase : string) :
  length (phrase_vector stopwords googledata_model phrase) = D.
Proof.
  unfold phrase_vector, Np.divide, Np.scale.
  rewrite !length_map, (zeros_fin 300), loop_fin, length_map.
  apply accumulate_length, repeat_length.
Qed.

Lemma phrase_vector_mean (phrase : string) :
  phrase_words stopwords phrase <> [] ->
  phrase_vector stopwords googledata_model phrase
  = map Fin (arithmetic_mean
               (map (token_vector googledata_model)
                    (phrase_words stopwords phrase))).
Proof.
  intros Hne. unfold phrase_vector.
  rewrite (zeros_fin 300), loop_fin.
  rewrite scale_divide_fin
    by (destruct (phrase_words stopwords phrase); simpl; congruence).
  f_equal. unfold arithmetic_mean.
  set (ws := phrase_words stopwords phrase).
  set (g := fun x : R => x * 1 / INR (length ws)).
  apply (nth_ext _ _ (g 0)
           (mean_component (map (token_vector googledata_model) ws) 0%nat)).
  - rewrite !length_map, length_seq.
    apply accumulate_length, repeat_length.
  - intros i Hi. rewrite length_map, accumulate_length in Hi
      by apply repeat_length.
    rewrite !map_nth, seq_nth by exact Hi.
    rewrite accumulate_nth by apply repeat_length.
    rewrite (nth_repeat_zero 300 i).
    unfold g, mean_component. rewrite length_map. simpl (0 + i)%nat.
    unfold Rdiv. ring.
Qed.

Lemma zeros_over_zero (n : nat) :
  Np.divide (Np.scale (Np.zeros n) (Fin 1)) (Float.of_nat 0)
  = repeat NaN n.
Proof.
  unfold Np.divide, Np.scale, Np.zeros, Float.of_nat.
  rewrite map_map.
  induction n as [|n IH]; cbn [repeat map]; trivial.
  f_equal; [ | exact IH ].
  cbn [Float.mul]. apply div_zero_zero; simpl; lra.
Qed.

(** No word at all: the sum is the array of zeros, which is divided by
    zero. *)
Lemma phrase_vector_no_word (phrase : string) :
  phrase_words stopwords phrase = [] ->
  phrase_vector stopwords googledata_model phrase = repeat NaN D.
Proof.
  intros H. unfold phrase_vector. rewrite H. simpl fold_left.
  simpl length. apply zeros_over_zero.
Qed.

End PhraseVector.

(** ** Loops and indexing *)

Section Loops.

Context {A B : Type}.

Lemma for_each_ok (f : A -> Py.result B) (h : A -> B) (l : list A) :
  (forall x, In x l -> f x = Py.Ok (h x)) ->
  Py.for_each f l = Py.Ok (map h l).
Proof.
  induction l as [|x l IH]; intros H; simpl; trivial.
  rewrite (H x) by now left. simpl.
  rewrite IH by (intros y Hy; apply H; now right). reflexivity.
Qed.

Lemma for_each_raise (f : A -> Py.result B) (h : A -> B)
      (l1 l2 : list A) (x : A) (e : Py.exn) :
  (forall y, In y l1 -> f y = Py.Ok (h y)) ->
  f x = Py.Raise e ->
  Py.for_each f (l1 ++ x :: l2) = Py.Raise e.
Proof.
  induction l1 as [|y l1 IH]; intros H Hx; simpl.
  - now rewrite Hx.
  - rewrite (H y) by now left. simpl.
    rewrite IH; trivial. intros z Hz. apply H. now right.
Qed.

Lemma getitem_nth (l : list A) (i : nat) (d : A) :
  i < length l -> Py.getitem l i = Py.Ok (nth i l d).
Proof.
  intros H. unfold Py.getitem.
  now rewrite (nth_error_nth' l d H).
Qed.

Lemma getitem_out (l : list A) (i : nat) :
  length l <= i -> Py.getitem l i = Py.Raise Py.IndexError.
Proof.
  intros H. unfold Py.getitem.
  apply nth_error_None in H. now rewrite H.
Qed.

Lemma map_nth_seq (l : list A) (d : A) (n : nat) :
  n <= length l -> map (fun i => nth i l d) (seq 0 n) = firstn n l.
Proof.
  revert n. induction l as [|x l IH]; intros [|n] H; simpl in *;
    trivial; try lia.
  f_equal. rewrite <- seq_shift, map_map. apply IH. lia.
Qed.

End Loops.

(** ** The sort *)

Section SortFacts.

Context {A : Type} (key : A -> float).

Lemma insert_perm (x : A) (l : list A) :
  Permutation (insert key x l) (x :: l).
Proof.
  induction l as [|y l IH]; simpl; trivial.
  destruct (Float.ltb (key y) (key x)); trivial.
  rewrite IH. apply perm_swap.
Qed.

Lemma sorted_perm (l : list A) : Permutation (sorted key l) l.
Proof.
  induction l as [|x l IH]; simpl; trivial.
  rewrite insert_perm. now constructor.
Qed.

Lemma sorted_length (l : list A) : length (sorted key l) = length l.
Proof. apply Permutation_length, sorted_perm. Qed.

(** A list that is one run without a descent is returned as it is. *)
Lemma sorted_ascending_run (l : list A) :
  ascending_run key l = true -> sorted key l = l.
Proof.
  induction l as [|x l IH]; trivial.
  intros H. destruct l as [|y l]; trivial.
  cbn [ascending_run] in H. apply andb_prop in H. destruct H as [Hxy Hl].
  change (sorted key (x :: y :: l)) with (insert key x (sorted key (y :: l))).
  rewrite (IH Hl). simpl.
  apply negb_true_iff in Hxy. now rewrite Hxy.
Qed.

(** The sort looks at the keys only. *)
Lemma insert_map {B : Type} (f : B -> A) (x : B) (l : list B) :
  insert key (f x) (map f l) = map f (insert (fun b => key (f b)) x l).
Proof.
  induction l as [|y l IH]; simpl; trivial.
  destruct (Float.ltb (key (f y)) (key (f x))); simpl; congruence.
Qed.

Lemma sorted_map {B : Type} (f : B -> A) (l : list B) :
  sorted key (map f l) = map f (sorted (fun b => key (f b)) l).
Proof.
  unfold sorted. induction l as [|x l IH]; simpl; trivial.
  rewrite IH. apply insert_map.
Qed.

End SortFacts.

Section RealSort.

Local Open Scope R_scope.

Lemma insert_precedes (x : nat * R) (l : list (nat * R)) :
  StronglySorted precedes l ->
  Forall (fun y => (fst x < fst y)%nat) l ->
  StronglySorted precedes (insert minus_score x l).
Proof.
  induction l as [|y l IH]; intros Hs Hx; simpl.
  - repeat constructor.
  - apply StronglySorted_inv in Hs. destruct Hs as [Hs Hy].
    inversion Hx as [|? ? Hxy Hxl]; subst.
    change (Float.ltb (minus_score y) (minus_score x))
      with (if Rlt_dec (- snd y) (- snd x) then true else false).
    destruct (Rlt_dec (- snd y) (- snd x)) as [Hlt|Hge].
    + constructor; [now apply IH|].
      apply (Permutation_Forall (Permutation_sym (insert_perm _ x l))).
      constructor; trivial. left. lra.
    + constructor; [now constructor|].
      assert (Hyx : precedes x y).
      { destruct (Req_dec_T (snd x) (snd y)) as [E|N].
        - right. now split.
        - left. lra. }
      constructor; trivial.
      rewrite Forall_forall in *. intros z Hz.
      specialize (Hy z Hz). specialize (Hxl z Hz).
      unfold precedes in *.
      destruct Hy as [Hy|[Hy _]].
      * left. lra.
      * destruct (Req_dec_T (snd x) (snd z)) as [E|N].
        -- right. now split.
        -- left. lra.
Qed.

Lemma sorted_precedes (l : list (nat * R)) :
  StronglySorted (fun a b => (fst a < fst b)%nat) l ->
  StronglySorted precedes (sorted minus_score l).
Proof.
  induction l as [|x l IH]; intros H; simpl.
  - constructor.
  - apply StronglySorted_inv in H. destruct H as [Hs Hx].
    apply insert_precedes; [now apply IH|].
    apply (Permutation_Forall (Permutation_sym (sorted_perm _ l))).
    exact Hx.
Qed.

End RealSort.

(** ** [similarity] *)

Section Similarity.

Local Open Scope R_scope.

Lemma similarity_score (v q : Np.ndarray) :
  length v = length q -> similarity v q = Py.Ok (score v q).
Proof.
  intros H. unfold similarity, Np.inner. now rewrite H, Nat.eqb_refl.
Qed.

Lemma score_fin (a b : list R) :
  RVec.norm a <> 0 -> RVec.norm b <> 0 ->
  score (map Fin a) (map Fin b) = Fin (RVec.cosine a b).
Proof.
  intros Ha Hb. unfold score.
  rewrite products_fin, sum_fin, !norm_fin. cbn [Float.mul].
  apply div_fin. now apply Rmult_integral_contrapositive_currified.
Qed.

Lemma score_zero_norm (a b : list R) :
  length a = length b ->
  RVec.norm a = 0 \/ RVec.norm b = 0 ->
  score (map Fin a) (map Fin b) = NaN.
Proof.
  intros Hlen H. unfold score.
  rewrite products_fin, sum_fin, !norm_fin. cbn [Float.mul].
  apply div_zero_zero.
  - fold (RVec.dot a b). destruct H as [H|H]; apply norm_zero in H.
    + rewrite H. apply dot_zero_l.
    + rewrite H. apply dot_zero_r.
  - destruct H as [H|H]; rewrite H; ring.
Qed.

Lemma norm_nan (n : nat) : n <> 0%nat -> Np.norm (repeat NaN n) = NaN.
Proof. destruct n; [congruence|]. reflexivity. Qed.

Lemma nonzero_norm_fin (a : list R) :
  nonzero_norm (map Fin a) <-> RVec.norm a <> 0.
Proof.
  unfold nonzero_norm. rewrite norm_fin. split.
  - intros [r [E H]]. injection E as <-. exact H.
  - intros H. now exists (RVec.norm a).
Qed.

Lemma zero_norm_fin (a : list R) :
  zero_norm (map Fin a) <-> RVec.norm a = 0.
Proof.
  unfold zero_norm. rewrite norm_fin. split.
  - intros E. now injection E.
  - intros ->. reflexivity.
Qed.

End Similarity.

(** ** [get_comparisons] *)

Section GetComparisons.

Variable stopwords : string -> bool.
Variable googledata_model : KeyedVectors.
Variable interesting_phrases : list string.

Lemma enumerate_length {A : Type} (l : list A) :
  length (Py.enumerate l) = length l.
Proof.
  unfold Py.enumerate. rewrite length_combine, length_seq. lia.
Qed.

Lemma enumerate_fst {A : Type} (l : list A) :
  map fst (Py.enumerate l) = seq 0 (length l).
Proof.
  unfold Py.enumerate. generalize 0.
  induction l as [|x l IH]; intros k; simpl; trivial.
  now rewrite IH.
Qed.

Lemma enumerate_snd {A : Type} (l : list A) :
  map snd (Py.enumerate l) = l.
Proof.
  unfold Py.enumerate. generalize 0.
  induction l as [|x l IH]; intros k; simpl; trivial.
  now rewrite IH.
Qed.

Lemma numbered_vectors_all :
  numbered_vectors stopwords googledata_model interesting_phrases
  = Py.enumerate
      (map (phrase_vector stopwords googledata_model) interesting_phrases).
Proof.
  unfold numbered_vectors, interesting_phrases_vectors, Py.enumerate.
  rewrite !length_map. generalize 0.
  induction interesting_phrases as [|p l IH]; intros k; simpl; trivial.
  now rewrite IH.
Qed.

Lemma scored_vectors_ok (phrase : string) :
  scored_vectors stopwords googledata_model interesting_phrases phrase
  = Py.Ok (scores stopwords googledata_model interesting_phrases phrase).
Proof.
  unfold scored_vectors, scores. rewrite numbered_vectors_all.
  apply for_each_ok. intros [i v] Hin. simpl.
  rewrite similarity_score; trivial.
  rewrite phrase_vector_length.
  apply (in_map snd) in Hin. rewrite enumerate_snd in Hin. simpl in Hin.
  apply in_map_iff in Hin. destruct Hin as [p [<- _]].
  apply phrase_vector_length.
Qed.

Lemma sorted_vectors_ok (phrase : string) :
  sorted_vectors stopwords googledata_model interesting_phrases phrase
  = Py.Ok (ranking stopwords googledata_model interesting_phrases phrase).
Proof. unfold sorted_vectors. now rewrite scored_vectors_ok. Qed.

Lemma scores_length (phrase : string) :
  length (scores stopwords googledata_model interesting_phrases phrase)
  = length interesting_phrases.
Proof.
  unfold scores. now rewrite length_map, enumerate_length, length_map.
Qed.

Lemma scores_fst (phrase : string) :
  map fst (scores stopwords googledata_model interesting_phrases phrase)
  = seq 0 (length interesting_phrases).
Proof.
  unfold scores. rewrite map_map. simpl.
  rewrite enumerate_fst. now rewrite length_map.
Qed.

Lemma ranking_length (phrase : string) :
  length (ranking stopwords googledata_model interesting_phrases phrase)
  = length interesting_phrases.
Proof. unfold ranking. now rewrite sorted_length, scores_length. Qed.

Lemma ranking_index (phrase : string) (item : nat * float) :
  In item (ranking stopwords googledata_model interesting_phrases phrase) ->
  fst item < length interesting_phrases.
Proof.
  intros H. unfold ranking in H.
  apply (Permutation_in _ (sorted_perm _ _)) in H.
  apply (in_map fst) in H. rewrite scores_fst in H.
  apply in_seq in H. lia.
Qed.

(** The second loop, for a [number] within the size of the corpus. *)
Lemma get_comparisons_within (phrase : string) (number : Z) :
  Z.to_nat number <= length interesting_phrases ->
  get_comparisons stopwords googledata_model interesting_phrases
                  phrase number
  = Py.Ok (map (phrase_of interesting_phrases)
               (firstn (Z.to_nat number)
                  (ranking stopwords googledata_model interesting_phrases
                           phrase))).
Proof.
  intros H. unfold get_comparisons. rewrite sorted_vectors_ok. simpl.
  set (r := ranking _ _ _ _).
  assert (Hr : length r = length interesting_phrases)
    by apply ranking_length.
  rewrite <- (map_nth_seq r (0, NaN)) by lia.
  rewrite map_map. apply for_each_ok. intros i Hi.
  apply in_seq in Hi.
  rewrite (getitem_nth r i (0, NaN)) by lia. simpl.
  apply getitem_nth, ranking_index with (phrase := phrase).
  apply nth_In. fold r. lia.
Qed.

(** The second loop, for a [number] beyond it. *)
Lemma get_comparisons_beyond (phrase : string) (number : Z) :
  length interesting_phrases < Z.to_nat number ->
  get_comparisons stopwords googledata_model interesting_phrases
                  phrase number
  = Py.Raise Py.IndexError.
Proof.
  intros H. unfold get_comparisons. rewrite sorted_vectors_ok. simpl.
  set (r := ranking _ _ _ _).
  assert (Hr : length r = length interesting_phrases)
    by apply ranking_length.
  set (n := length interesting_phrases) in *.
  unfold Py.range.
  replace (Z.to_nat number) with (n + S (Z.to_nat number - S n)) by lia.
  rewrite seq_app. simpl seq.
  apply for_each_raise
    with (h := fun i => phrase_of interesting_phrases (nth i r (0, NaN))).
  - intros i Hi. apply in_seq in Hi.
    rewrite (getitem_nth r i (0, NaN)) by lia. simpl.
    apply getitem_nth, ranking_index with (phrase := phrase).
    apply nth_In. fold r. lia.
  - rewrite getitem_out by lia. reflexivity.
Qed.

End GetComparisons.

(** ** Arrays whose norm is a real number *)

Section RealNorm.

Local Open Scope R_scope.

Lemma reals_fin (a : list R) : reals (map Fin a) = a.
Proof.
  unfold reals. rewrite map_map. induction a; simpl; congruence.
Qed.

Lemma add_real (x y : float) (r : R) :
  Float.add x y = Fin r -> exists a b, x = Fin a /\ y = Fin b.
Proof. destruct x, y; simpl; intros H; try discriminate; eauto. Qed.

Lemma square_real (x : float) (r : R) :
  Float.mul x x = Fin r -> exists a, x = Fin a.
Proof. destruct x; simpl; intros H; try discriminate; eauto. Qed.

Lemma sqrt_real (x : float) (r : R) :
  Float.sqrt x = Fin r -> exists a, x = Fin a.
Proof. destruct x; simpl; intros H; try discriminate; eauto. Qed.

Lemma sum_squares_real (v : Np.ndarray) (r : R) :
  Np.sum (Np.products v v) = Fin r -> v = map Fin (reals v).
Proof.
  revert r. induction v as [|x v IH]; intros r H; simpl; trivial.
  simpl in H. apply add_real in H. destruct H as [a [b [Ha Hb]]].
  apply square_real in Ha. destruct Ha as [c ->].
  f_equal. now apply (IH b).
Qed.

(** An array with a real norm has real components only. *)
Lemma norm_real (v : Np.ndarray) (r : R) :
  Np.norm v = Fin r -> v = map Fin (reals v) /\ RVec.norm (reals v) = r.
Proof.
  intros H. pose proof H as H'. unfold Np.norm in H'.
  apply sqrt_real in H'. destruct H' as [a Ha].
  apply sum_squares_real in Ha.
  split; trivial. rewrite Ha, norm_fin in H. now injection H.
Qed.

Lemma nonzero_norm_reals (v : Np.ndarray) :
  nonzero_norm v -> v = map Fin (reals v) /\ RVec.norm (reals v) <> 0.
Proof.
  intros [r [H Hr]]. apply norm_real in H. destruct H as [H1 H2].
  split; trivial. now rewrite H2.
Qed.

Lemma mul_zero_l (r : R) (y : float) :
  r = 0 -> zero_or_nan (Float.mul (Fin r) y).
Proof.
  intros ->. unfold zero_or_nan.
  destruct y; simpl; unfold Float.signed_inf;
    rewrite ?(is_zero_true 0 eq_refl); simpl; auto.
  right. exists (0 * x). split; trivial. ring.
Qed.

Lemma mul_zero_r (r : R) (y : float) :
  r = 0 -> zero_or_nan (Float.mul y (Fin r)).
Proof.
  intros ->. unfold zero_or_nan.
  destruct y; simpl; unfold Float.signed_inf;
    rewrite ?(is_zero_true 0 eq_refl); simpl; auto.
  right. exists (x * 0). split; trivial. ring.
Qed.

Lemma add_zero_or_nan (x y : float) :
  zero_or_nan x -> zero_or_nan y -> zero_or_nan (Float.add x y).
Proof.
  unfold zero_or_nan.
  intros [->|[r [-> Hr]]] [->|[z [-> Hz]]]; simpl; auto.
  right. exists (r + z). split; trivial. subst. ring.
Qed.

(** The products of a zero array with any array sum to zero, or to NaN
    where the other array is not finite. *)
Lemma sum_products_zero_l (n : nat) (q : Np.ndarray) :
  zero_or_nan (Np.sum (Np.products (map Fin (repeat 0 n)) q)).
Proof.
  unfold Np.sum. revert q.
  induction n as [|n IH]; intros [|y q];
    cbn [repeat map Np.products fold_right];
    try (right; exists 0; now split).
  apply add_zero_or_nan; [now apply mul_zero_l | apply IH].
Qed.

Lemma products_comm (v q : Np.ndarray) :
  Np.products v q = Np.products q v.
Proof.
  revert q. induction v as [|x v IH]; intros [|y q]; simpl; trivial.
  rewrite IH. f_equal.
  destruct x, y; simpl; trivial. f_equal. ring.
Qed.

Lemma div_zero_or_nan (x y : float) :
  zero_or_nan x -> zero_or_nan y -> Float.div x y = NaN.
Proof.
  intros [->|[r [-> Hr]]] [->|[z [-> Hz]]]; trivial.
  now apply div_zero_zero.
Qed.

(** A zero norm on either side makes the score 0/0. *)
Lemma score_zero_norm_any (v q : Np.ndarray) :
  length v = length q ->
  zero_norm v \/ zero_norm q ->
  score v q = NaN.
Proof.
  intros Hlen [H|H]; unfold zero_norm in H; pose proof H as H';
    apply norm_real in H'; destruct H' as [Hv Hn];
    apply norm_zero in Hn; unfold score; rewrite H.
  - apply div_zero_or_nan; [|now apply mul_zero_l].
    rewrite Hv, Hn. apply sum_products_zero_l.
  - apply div_zero_or_nan; [|now apply mul_zero_r].
    rewrite (products_comm v q), Hv, Hn. apply sum_products_zero_l.
Qed.

Lemma cosine_self (a : list R) :
  RVec.norm a <> 0 -> RVec.cosine a a = 1.
Proof.
  intros H. unfold RVec.cosine. unfold RVec.norm in *.
  rewrite sqrt_sqrt by apply dot_self_nonneg.
  apply Rdiv_diag. intros E. apply H. rewrite E. apply sqrt_0.
Qed.

End RealNorm.

(** ** The order of the ranking *)

Section RankingOrder.

Local Open Scope R_scope.

Lemma StronglySorted_map {A B : Type} (P : A -> A -> Prop)
      (Q : B -> B -> Prop) (f : A -> B) (l : list A) :
  (forall a b, P a b -> Q (f a) (f b)) ->
  StronglySorted P l -> StronglySorted Q (map f l).
Proof.
  intros H. induction 1 as [|x l Hs IH Hx]; simpl; constructor; trivial.
  rewrite Forall_map. revert Hx. apply Forall_impl. intros b. apply H.
Qed.

Lemma in_firstn {A : Type} (n : nat) (l : list A) (x : A) :
  In x (firstn n l) -> In x l.
Proof.
  intros H. rewrite <- (firstn_skipn n l). apply in_or_app. now left.
Qed.

Lemma StronglySorted_firstn {A : Type} (P : A -> A -> Prop)
      (n : nat) (l : list A) :
  StronglySorted P l -> StronglySorted P (firstn n l).
Proof.
  intros H. revert n. induction H as [|x l Hs IH Hx]; intros [|n]; simpl;
    constructor; trivial.
  rewrite Forall_forall in *. intros y Hy. apply Hx.
  now apply (in_firstn n l).
Qed.

Lemma StronglySorted_adjacent {A : Type} (P : A -> A -> Prop)
      (l : list A) (i : nat) (a b : A) :
  StronglySorted P l ->
  nth_error l i = Some a -> nth_error l (S i) = Some b -> P a b.
Proof.
  intros H. revert i. induction H as [|x l Hs IH Hx]; intros i Ha Hb.
  - destruct i; discriminate.
  - destruct i as [|i]; simpl in Ha, Hb.
    + injection Ha as <-. rewrite Forall_forall in Hx. apply Hx.
      now apply (nth_error_In l 0).
    + now apply (IH i).
Qed.

Lemma increasing_of_seq {A : Type} (l : list (nat * A)) (k n : nat) :
  map fst l = seq k n ->
  StronglySorted (fun a b => (fst a < fst b)%nat) l.
Proof.
  revert k n. induction l as [|x l IH]; intros k [|n] H;
    try discriminate; constructor.
  - simpl in H. injection H as _ H. now apply (IH (S k) n).
  - simpl in H. injection H as Hx H.
    rewrite Forall_forall. intros y Hy.
    apply (in_map fst) in Hy. rewrite H in Hy. apply in_seq in Hy. lia.
Qed.

Lemma precedes_ranked (a b : nat * R) :
  precedes a b -> ranked_before (fin_item a) (fin_item b).
Proof.
  unfold precedes, ranked_before, fin_item. simpl fst. simpl snd.
  intros H. split.
  - apply geb_fin. destruct H as [H|[H _]]; lra.
  - intros E. injection E as E. destruct H as [H|[_ H]]; trivial. lra.
Qed.

Lemma enumerate_in {A : Type} (l : list A) (i : nat) (x : A) :
  In (i, x) (Py.enumerate l) -> nth_error l i = Some x.
Proof.
  unfold Py.enumerate.
  assert (G : forall k, In (i, x) (combine (seq k (length l)) l) ->
                        (k <= i)%nat /\ nth_error l (i - k) = Some x).
  { induction l as [|y l IH]; intros k H; simpl in H; [easy|].
    destruct H as [H|H].
    - injection H as -> ->. rewrite Nat.sub_diag. split; trivial.
    - apply IH in H. destruct H as [Hk H]. split; [lia|].
      replace (i - k)%nat with (S (i - S k)) by lia. exact H. }
  intros H. apply G in H. now rewrite Nat.sub_0_r in H.
Qed.

Lemma enumerate_nth {A : Type} (l : list A) (i : nat) (x : A) :
  nth_error l i = Some x -> In (i, x) (Py.enumerate l).
Proof.
  unfold Py.enumerate.
  assert (G : forall k j, nth_error l j = Some x ->
                          In ((k + j)%nat, x) (combine (seq k (length l)) l)).
  { induction l as [|y l IH]; intros k j H; [destruct j; discriminate|].
    destruct j as [|j]; simpl in H |- *.
    - injection H as ->. left. f_equal. lia.
    - right. replace (k + S j)%nat with (S k + j)%nat by lia.
      now apply IH. }
  intros H. exact (G 0%nat i H).
Qed.

End RankingOrder.

Section RankingFacts.

Local Open Scope R_scope.

Variable stopwords : string -> bool.
Variable googledata_model : KeyedVectors.
Variable interesting_phrases : list string.
Variable phrase : string.

(** Each entry of the ranking carries the score of the phrase it
    numbers. *)
Lemma ranking_scores (item : nat * float) :
  In item (ranking stopwords googledata_model interesting_phrases phrase) ->
  exists p,
    nth_error interesting_phrases (fst item) = Some p
    /\ similarity (phrase_vector stopwords googledata_model p)
                  (phrase_vector stopwords googledata_model phrase)
       = Py.Ok (snd item).
Proof.
  intros H. unfold ranking in H.
  apply (Permutation_in _ (sorted_perm _ _)) in H.
  unfold scores in H. apply in_map_iff in H.
  destruct H as [[i v] [<- H]]. simpl.
  apply enumerate_in in H. rewrite nth_error_map in H.
  destruct (nth_error interesting_phrases i) as [p|]; [|discriminate].
  injection H as <-. exists p. split; trivial.
  apply similarity_score. now rewrite !phrase_vector_length.
Qed.

(** Every phrase of the corpus has an entry in the ranking. *)
Lemma ranking_complete (i : nat) (p : string) :
  nth_error interesting_phrases i = Some p ->
  In (i, score (phrase_vector stopwords googledata_model p)
               (phrase_vector stopwords googledata_model phrase))
     (ranking stopwords googledata_model interesting_phrases phrase).
Proof.
  intros H. unfold ranking.
  apply (Permutation_in _ (Permutation_sym (sorted_perm _ _))).
  unfold scores.
  apply (in_map (fun item : nat * Np.ndarray =>
                   (fst item, score (snd item) _))
                _ (i, phrase_vector stopwords googledata_model p)).
  apply enumerate_nth. now apply map_nth_error.
Qed.

(** With real scores the ranking is in order. *)
Lemma ranking_sorted :
  nonzero_norm (phrase_vector stopwords googledata_model phrase) ->
  Forall (fun p => nonzero_norm (phrase_vector stopwords googledata_model p))
         interesting_phrases ->
  StronglySorted ranked_before
    (ranking stopwords googledata_model interesting_phrases phrase).
Proof.
  intros Hq Hc. unfold ranking, scores.
  set (q := phrase_vector stopwords googledata_model phrase) in *.
  set (vs := map (phrase_vector stopwords googledata_model)
                 interesting_phrases).
  assert (Hvs : Forall nonzero_norm vs).
  { unfold vs. now rewrite Forall_map. }
  clearbody vs q.
  apply nonzero_norm_reals in Hq. destruct Hq as [Hq Hqn].
  rewrite (map_ext_in _
             (fun item => fin_item
                (fst item, RVec.cosine (reals (snd item)) (reals q)))).
  2:{ intros [i v] Hin. unfold fin_item. simpl. f_equal.
      apply (in_map snd) in Hin. rewrite enumerate_snd in Hin.
      simpl in Hin. rewrite Forall_forall in Hvs.
      apply Hvs, nonzero_norm_reals in Hin. destruct Hin as [Hv Hvn].
      rewrite Hv at 1. rewrite Hq at 1. now apply score_fin. }
  rewrite <- (map_map
                (fun item : nat * Np.ndarray =>
                   (fst item, RVec.cosine (reals (snd item)) (reals q)))
                fin_item).
  rewrite sorted_map.
  apply (StronglySorted_map precedes); [apply precedes_ranked|].
  apply sorted_precedes.
  apply (increasing_of_seq _ 0%nat (length vs)).
  rewrite map_map. simpl. apply enumerate_fst.
Qed.

End RankingFacts.

(** ** The small table *)

Section Toy.

Local Open Scope R_scope.

Lemma mean_single (v : list R) :
  length v = D -> arithmetic_mean [v] = v.
Proof.
  intros H. unfold arithmetic_mean.
  apply (nth_ext _ _ (mean_component [v] 0%nat) 0).
  - now rewrite length_map, length_seq.
  - intros i Hi. rewrite length_map, length_seq in Hi.
    rewrite map_nth, seq_nth by exact Hi.
    unfold mean_component, RVec.sum. simpl. field.
Qed.

Lemma phrase_vector_single (stopwords : string -> bool)
      (googledata_model : KeyedVectors) (phrase w : string) :
  phrase_words stopwords phrase = [w] ->
  phrase_vector stopwords googledata_model phrase
  = map Fin (token_vector googledata_model w).
Proof.
  intros H. rewrite phrase_vector_mean by (rewrite H; discriminate).
  rewrite H. simpl map at 2.
  rewrite mean_single; trivial.
  apply token_vector_length.
Qed.

Lemma dot_happy_happy : RVec.dot (unit_vector 0) (unit_vector 0) = 1.
Proof.
  cbv [unit_vector D seq map Nat.eqb RVec.dot RVec.products RVec.sum
       fold_right].
  ring.
Qed.

Lemma dot_sad_happy : RVec.dot (unit_vector 1) (unit_vector 0) = 0.
Proof.
  cbv [unit_vector D seq map Nat.eqb RVec.dot RVec.products RVec.sum
       fold_right].
  ring.
Qed.

Lemma dot_sad_sad : RVec.dot (unit_vector 1) (unit_vector 1) = 1.
Proof.
  cbv [unit_vector D seq map Nat.eqb RVec.dot RVec.products RVec.sum
       fold_right].
  ring.
Qed.

Lemma norm_happy : RVec.norm (unit_vector 0) = 1.
Proof. unfold RVec.norm. rewrite dot_happy_happy. apply sqrt_1. Qed.

Lemma norm_sad : RVec.norm (unit_vector 1) = 1.
Proof. unfold RVec.norm. rewrite dot_sad_sad. apply sqrt_1. Qed.

Lemma vector_happy :
  phrase_vector no_stopwords toy_model "happy"
  = map Fin (unit_vector 0).
Proof. now rewrite (phrase_vector_single _ _ _ "happy"). Qed.

Lemma vector_sad :
  phrase_vector no_stopwords toy_model "sad" = map Fin (unit_vector 1).
Proof. now rewrite (phrase_vector_single _ _ _ "sad"). Qed.

(** A phrase whose only word is not in the table. *)
Lemma vector_zzz :
  phrase_vector no_stopwords toy_model "zzz" = map Fin (repeat 0 D).
Proof. now rewrite (phrase_vector_single _ _ _ "zzz"). Qed.

Lemma score_zzz (q : Np.ndarray) :
  length q = D -> score (map Fin (repeat 0 D)) q = NaN.
Proof.
  intros H. apply score_zero_norm_any.
  - now rewrite length_map, repeat_length.
  - left. apply zero_norm_fin, norm_zeros.
Qed.

Lemma score_happy_happy :
  score (map Fin (unit_vector 0)) (map Fin (unit_vector 0)) = Fin 1.
Proof.
  rewrite score_fin by (rewrite norm_happy; lra).
  f_equal. apply cosine_self. rewrite norm_happy. lra.
Qed.

Lemma score_sad_happy :
  score (map Fin (unit_vector 1)) (map Fin (unit_vector 0)) = Fin 0.
Proof.
  rewrite score_fin by (rewrite ?norm_happy, ?norm_sad; lra).
  f_equal. unfold RVec.cosine.
  rewrite dot_sad_happy, norm_happy, norm_sad. field.
Qed.

End Toy.

(** * The statements of the specification *)

(** ** TextVectorizer *)

Example phrase_words_example :
  phrase_words some_stopwords "  The Art	of  WAR "
  = ["the"; "art"; "of"; "war"].
Proof. reflexivity. Qed.

Example phrase_words_blank : phrase_words some_stopwords "  	 " = [].
Proof. reflexivity. Qed.

(** C9. The words [phrase_vector] aggregates are the whole whitespace split
    of the lowercased phrase, whatever the stopword list holds: the filter
    keeps every word.  Each word is non-empty, free of whitespace and in
    lower case, the words together are the non-whitespace characters of the
    lowercased phrase in their order, and a word that is a stopword is
    among them. *)
Theorem phrase_words_keep_everything :
  forall (stopwords : string -> bool) (phrase : string),
    phrase_words stopwords phrase = Str.split (Str.lower phrase)
    /\ Forall (fun w => w <> EmptyString /\ Str.clean w /\ Str.lowercase w)
              (phrase_words stopwords phrase)
    /\ concat (map Str.chars (phrase_words stopwords phrase))
       = filter (fun c => negb (Str.isspace c))
                (map Str.lower_char (Str.chars phrase))
    /\ (forall w, In w (Str.split (Str.lower phrase)) ->
                  stopwords w = true ->
                  In w (phrase_words stopwords phrase)).
Proof.
  intros stopwords phrase. rewrite phrase_words_split.
  assert (Hc : concat (map Str.chars (Str.split (Str.lower phrase)))
               = filter (fun c => negb (Str.isspace c))
                        (map Str.lower_char (Str.chars phrase))).
  { unfold Str.split. rewrite split_scan_concat. simpl.
    now rewrite chars_lower. }
  repeat split; trivial.
  pose proof (split_scan_tokens (Str.lower phrase) EmptyString
                                (Forall_nil _)) as Ht.
  fold (Str.split (Str.lower phrase)) in Ht.
  rewrite Forall_forall in *. intros w Hw.
  destruct (Ht w Hw) as [Hne Hcl]. repeat split; trivial.
  unfold Str.lowercase. rewrite Forall_forall. intros c Hin.
  assert (Hcat : In c (concat (map Str.chars
                                   (Str.split (Str.lower phrase))))).
  { apply in_concat. exists (Str.chars w). split; trivial.
    now apply in_map. }
  rewrite Hc in Hcat. apply filter_In in Hcat. destruct Hcat as [Hcat _].
  apply in_map_iff in Hcat. destruct Hcat as [c' [<- _]].
  apply lower_char_not_upper.
Qed.

(** C1. For a phrase with at least one word, [phrase_vector] returns the
    arithmetic mean, component by component, of the vectors of its words,
    where a word the table does not know counts for the zero vector of
    dimension 300; the result has 300 real components. *)
Theorem phrase_vector_arithmetic_mean :
  forall (stopwords : string -> bool) (googledata_model : KeyedVectors)
         (phrase : string),
    phrase_words stopwords phrase <> [] ->
    phrase_vector stopwords googledata_model phrase
    = map Fin (arithmetic_mean
                 (map (token_vector googledata_model)
                      (phrase_words stopwords phrase)))
    /\ length (phrase_vector stopwords googledata_model phrase) = 300
    /\ (forall token, kv_get googledata_model token = None ->
                      token_vector googledata_model token = repeat 0%R 300).
Proof.
  intros stopwords googledata_model phrase H. split; [|split].
  - now apply phrase_vector_mean.
  - apply phrase_vector_length.
  - intros token E. unfold token_vector. now rewrite E.
Qed.

Lemma phrase_vector_arithmetic_mean_witness :
  phrase_words some_stopwords "the Happy  zzz" <> []
  /\ phrase_vector some_stopwords toy_model "the Happy  zzz"
     = map Fin (arithmetic_mean
                  (map (token_vector toy_model) ["the"; "happy"; "zzz"])).
Proof.
  split.
  - discriminate.
  - apply (phrase_vector_arithmetic_mean some_stopwords toy_model
                                         "the Happy  zzz").
    discriminate.
Defined.

(** C5, as the code has it.  A phrase without any word, which is a phrase
    made of whitespace only, raises nothing: the array of zeros is divided
    by the length zero, and [phrase_vector] returns the array of 300
    NaN. *)
Theorem phrase_vector_no_token :
  forall (stopwords : string -> bool) (googledata_model : KeyedVectors)
         (phrase : string),
    phrase_words stopwords phrase = [] ->
    Forall (fun c => Str.isspace c = true) (Str.chars phrase)
    /\ phrase_vector stopwords googledata_model phrase
       = Np.divide (Np.scale (Np.zeros 300) (Fin 1)) (Float.of_nat 0)
    /\ phrase_vector stopwords googledata_model phrase = repeat NaN 300.
Proof.
  intros stopwords googledata_model phrase H. split; [|split].
  - now apply (phrase_words_nil stopwords).
  - rewrite (phrase_vector_no_word _ _ _ H). symmetry.
    apply zeros_over_zero.
  - now apply phrase_vector_no_word.
Qed.

Lemma phrase_vector_no_token_witness :
  phrase_words no_stopwords "   " = []
  /\ phrase_vector no_stopwords toy_model "   " = repeat NaN 300.
Proof.
  split.
  - reflexivity.
  - apply (phrase_vector_no_token no_stopwords toy_model "   ").
    reflexivity.
Defined.

(** C5 as the specification states it fails: the empty string and a string
    of three spaces have no word, and [phrase_vector] returns for both an
    array, the 300 results of 0/0. *)
Lemma phrase_vector_blank_counterexample :
  phrase_words no_stopwords "" = []
  /\ phrase_words no_stopwords "   " = []
  /\ phrase_vector no_stopwords toy_model "" = repeat NaN 300
  /\ phrase_vector no_stopwords toy_model "   " = repeat NaN 300
  /\ Float.div (Float.mul (Fin 0) (Fin 1)) (Float.of_nat 0) = NaN.
Proof.
  repeat split.
  - now apply phrase_vector_no_word.
  - now apply phrase_vector_no_word.
  - cbn [Float.mul]. apply div_zero_zero; simpl; lra.
Qed.

(** ** SimilarityScorer *)

(** C8. The similarity of an array with itself is 1 as soon as its norm is
    a real number other than zero, in any dimension, 300 among them. *)
Theorem similarity_self :
  forall v : Np.ndarray,
    nonzero_norm v -> similarity v v = Py.Ok (Fin 1).
Proof.
  intros v H. apply nonzero_norm_reals in H. destruct H as [Hv Hn].
  rewrite similarity_score by reflexivity.
  rewrite Hv, score_fin by assumption.
  now rewrite cosine_self.
Qed.

Lemma similarity_self_witness :
  nonzero_norm (phrase_vector no_stopwords toy_model "happy")
  /\ similarity (phrase_vector no_stopwords toy_model "happy")
                (phrase_vector no_stopwords toy_model "happy")
     = Py.Ok (Fin 1).
Proof.
  assert (H : nonzero_norm (phrase_vector no_stopwords toy_model "happy")).
  { rewrite vector_happy. apply nonzero_norm_fin.
    rewrite norm_happy. apply R1_neq_R0. }
  split.
  - exact H.
  - exact (similarity_self _ H).
Defined.

(** C4, as the code has it.  When one of two arrays of the same length has
    norm zero, [similarity] raises nothing: it divides zero by zero and
    returns NaN. *)
Theorem similarity_zero_norm_nan :
  forall v q : Np.ndarray,
    length v = length q ->
    zero_norm v \/ zero_norm q ->
    similarity v q = Py.Ok NaN.
Proof.
  intros v q Hlen H. rewrite similarity_score by assumption.
  now rewrite score_zero_norm_any.
Qed.

Lemma similarity_zero_norm_nan_witness :
  length (Np.zeros 300) = length (map Fin (unit_vector 0))
  /\ zero_norm (Np.zeros 300)
  /\ similarity (Np.zeros 300) (map Fin (unit_vector 0)) = Py.Ok NaN.
Proof.
  assert (Hz : zero_norm (Np.zeros 300)).
  { rewrite zeros_fin. apply zero_norm_fin, norm_zeros. }
  assert (Hl : length (Np.zeros 300) = length (map Fin (unit_vector 0))).
  { reflexivity. }
  split; [exact Hl|]. split; [exact Hz|].
  exact (similarity_zero_norm_nan _ _ Hl (or_introl Hz)).
Defined.

(** C4 as the specification states it fails: the array of zeros has norm
    zero, and its similarity with the vector of "happy" is not an error but
    the value NaN. *)
Lemma similarity_zero_norm_counterexample :
  zero_norm (Np.zeros 300)
  /\ similarity (Np.zeros 300) (word_vector toy_model "happy") = Py.Ok NaN
  /\ (forall e, similarity (Np.zeros 300) (word_vector toy_model "happy")
                <> Py.Raise e).
Proof.
  assert (Hz : zero_norm (Np.zeros 300)).
  { rewrite zeros_fin. apply zero_norm_fin, norm_zeros. }
  assert (E : similarity (Np.zeros 300) (word_vector toy_model "happy")
              = Py.Ok NaN).
  { rewrite similarity_score by reflexivity.
    rewrite score_zero_norm_any; trivial. now left. }
  split; [exact Hz|]. split; [exact E|].
  intros e. rewrite E. discriminate.
Qed.

(** ** TopNQuery *)

(** C10. The filter on None in [get_comparisons] drops nothing:
    [phrase_vector] returns an array of 300 components for every phrase, so
    no element of [interesting_phrases_vectors] is None, and the vectors
    that are scored and sorted are those of the whole corpus, each under
    its index, zero vectors included. *)
Theorem none_filter_keeps_everything :
  forall (stopwords : string -> bool) (googledata_model : KeyedVectors)
         (interesting_phrases : list string),
    Forall (fun v => v <> None)
           (interesting_phrases_vectors stopwords googledata_model
                                        interesting_phrases)
    /\ numbered_vectors stopwords googledata_model interesting_phrases
       = Py.enumerate (map (phrase_vector stopwords googledata_model)
                           interesting_phrases)
    /\ length (numbered_vectors stopwords googledata_model
                                interesting_phrases)
       = length interesting_phrases
    /\ Forall (fun item => length (snd item) = 300)
              (numbered_vectors stopwords googledata_model
                                interesting_phrases)
    /\ (forall i p, nth_error interesting_phrases i = Some p ->
                    In (i, phrase_vector stopwords googledata_model p)
                       (numbered_vectors stopwords googledata_model
                                         interesting_phrases)).
Proof.
  intros stopwords googledata_model interesting_phrases.
  rewrite numbered_vectors_all.
  split; [|split; [|split; [|split]]].
  - unfold interesting_phrases_vectors. rewrite Forall_map.
    apply Forall_forall. intros p _. discriminate.
  - reflexivity.
  - now rewrite enumerate_length, length_map.
  - apply Forall_forall. intros [i v] Hin. simpl.
    apply enumerate_in in Hin. rewrite nth_error_map in Hin.
    destruct (nth_error interesting_phrases i); [|discriminate].
    injection Hin as <-. apply phrase_vector_length.
  - intros i p H. apply enumerate_nth. now apply map_nth_error.
Qed.

(** C2, as the code has it.  For a positive [number] up to the size of the
    corpus, [get_comparisons] returns that many phrases, which is the
    minimum of [number] and the size; for a [number] beyond the size, the
    index runs off [sorted_vectors] and the call raises IndexError. *)
Theorem get_comparisons_count :
  forall (stopwords : string -> bool) (googledata_model : KeyedVectors)
         (interesting_phrases : list string) (phrase : string) (number : Z),
    (0 < number)%Z ->
    ((number <= Z.of_nat (length interesting_phrases))%Z ->
     exists output,
       get_comparisons stopwords googledata_model interesting_phrases
                       phrase number = Py.Ok output
       /\ Z.of_nat (length output)
          = Z.min number (Z.of_nat (length interesting_phrases)))
    /\ ((Z.of_nat (length interesting_phrases) < number)%Z ->
        get_comparisons stopwords googledata_model interesting_phrases
                        phrase number = Py.Raise Py.IndexError).
Proof.
  intros stopwords googledata_model interesting_phrases phrase number Hpos.
  split; intros H.
  - eexists. split.
    + apply get_comparisons_within. lia.
    + rewrite length_map, length_firstn, ranking_length. lia.
  - apply get_comparisons_beyond. lia.
Qed.

Lemma get_comparisons_count_witness :
  (0 < 1)%Z
  /\ exists output,
       get_comparisons no_stopwords toy_model ["sad"; "happy"] "happy" 1
       = Py.Ok output
       /\ Z.of_nat (length output) = 1%Z.
Proof.
  split; [reflexivity|].
  apply (get_comparisons_count no_stopwords toy_model ["sad"; "happy"]
                               "happy" 1); reflexivity || discriminate.
Defined.

(** C2 as the specification states it fails: with one phrase in the corpus
    and two results asked for, the call does not return the one phrase but
    raises IndexError. *)
Lemma get_comparisons_count_counterexample :
  get_comparisons no_stopwords toy_model ["happy"] "happy" 2
  = Py.Raise Py.IndexError
  /\ ~ (exists output,
          get_comparisons no_stopwords toy_model ["happy"] "happy" 2
          = Py.Ok output
          /\ length output = Nat.min 2 1).
Proof.
  assert (E : get_comparisons no_stopwords toy_model ["happy"] "happy" 2
              = Py.Raise Py.IndexError).
  { apply get_comparisons_beyond. simpl. lia. }
  split; [exact E|]. intros [output [H _]]. rewrite E in H. discriminate.
Qed.

(** C7, as the code has it.  A [number] that is zero or negative is no
    error: the loop over [range(number)] does not run and the result is the
    empty list; an empty corpus with a positive [number] raises
    IndexError. *)
Theorem get_comparisons_small_number :
  forall (stopwords : string -> bool) (googledata_model : KeyedVectors)
         (interesting_phrases : list string) (phrase : string) (number : Z),
    ((number <= 0)%Z ->
     get_comparisons stopwords googledata_model interesting_phrases
                     phrase number = Py.Ok [])
    /\ ((0 < number)%Z ->
        get_comparisons stopwords googledata_model [] phrase number
        = Py.Raise Py.IndexError).
Proof.
  intros stopwords googledata_model interesting_phrases phrase number.
  split; intros H.
  - rewrite get_comparisons_within.
    + replace (Z.to_nat number) with 0 by lia. reflexivity.
    + lia.
  - apply get_comparisons_beyond. simpl. lia.
Qed.

Lemma get_comparisons_small_number_witness :
  get_comparisons no_stopwords toy_model ["sad"; "happy"] "happy" (-3)
  = Py.Ok []
  /\ get_comparisons no_stopwords toy_model [] "happy" 2
     = Py.Raise Py.IndexError.
Proof.
  split.
  - apply (get_comparisons_small_number no_stopwords toy_model
             ["sad"; "happy"] "happy" (-3)).
    discriminate.
  - apply (get_comparisons_small_number no_stopwords toy_model
             ["sad"; "happy"] "happy" 2).
    reflexivity.
Defined.

(** C7 as the specification states it fails: zero and a negative number
    give the empty list and no error, and the empty corpus raises
    IndexError when one result is asked for. *)
Lemma get_comparisons_contract_counterexample :
  get_comparisons no_stopwords toy_model ["happy"] "happy" 0 = Py.Ok []
  /\ get_comparisons no_stopwords toy_model ["happy"] "happy" (-1) = Py.Ok []
  /\ get_comparisons no_stopwords toy_model [] "happy" 1
     = Py.Raise Py.IndexError.
Proof.
  split; [|split].
  - rewrite get_comparisons_within by (simpl; lia). reflexivity.
  - rewrite get_comparisons_within by (simpl; lia). reflexivity.
  - apply get_comparisons_beyond. simpl. lia.
Qed.

(** C6, as the code has it.  When the vector of the query and the vector of
    every phrase of the corpus have a norm that is a real number other than
    zero, every score is a real number, and the result of a query for
    [number] phrases, [number] within the size of the corpus, is read off
    the first [number] entries of [sorted_vectors]: their scores are the
    similarities of the phrases they number, the scores never go up from an
    entry to the next, and of two entries with the same score the one that
    comes first in the corpus comes first in the result. *)
Theorem ranking_descending_stable :
  forall (stopwords : string -> bool) (googledata_model : KeyedVectors)
         (interesting_phrases : list string) (phrase : string) (number : Z),
    nonzero_norm (phrase_vector stopwords googledata_model phrase) ->
    Forall (fun p => nonzero_norm (phrase_vector stopwords googledata_model p))
           interesting_phrases ->
    (0 <= number <= Z.of_nat (length interesting_phrases))%Z ->
    exists sorted_vectors' result : list (nat * float),
      sorted_vectors stopwords googledata_model interesting_phrases phrase
      = Py.Ok sorted_vectors'
      /\ result = firstn (Z.to_nat number) sorted_vectors'
      /\ get_comparisons stopwords googledata_model interesting_phrases
                         phrase number
         = Py.Ok (map (phrase_of interesting_phrases) result)
      /\ Forall (fun item =>
                   exists p,
                     nth_error interesting_phrases (fst item) = Some p
                     /\ similarity
                          (phrase_vector stopwords googledata_model p)
                          (phrase_vector stopwords googledata_model phrase)
                        = Py.Ok (snd item))
                result
      /\ descending result
      /\ StronglySorted ranked_before result.
Proof.
  intros stopwords googledata_model interesting_phrases phrase number
         Hq Hc Hn.
  exists (ranking stopwords googledata_model interesting_phrases phrase).
  eexists. split; [apply sorted_vectors_ok|]. split; [reflexivity|].
  assert (Hs : StronglySorted ranked_before
                 (firstn (Z.to_nat number)
                    (ranking stopwords googledata_model interesting_phrases
                             phrase))).
  { apply StronglySorted_firstn. now apply ranking_sorted. }
  split; [apply get_comparisons_within; lia|].
  split; [|split; trivial].
  - apply Forall_forall. intros item Hin.
    apply in_firstn in Hin. now apply ranking_scores.
  - intros i a b Ha Hb.
    now apply (StronglySorted_adjacent ranked_before _ i a b Hs).
Qed.

Lemma ranking_descending_stable_witness :
  nonzero_norm (phrase_vector no_stopwords toy_model "happy")
  /\ Forall (fun p => nonzero_norm (phrase_vector no_stopwords toy_model p))
            ["sad"; "happy"]
  /\ exists sorted_vectors' result : list (nat * float),
       sorted_vectors no_stopwords toy_model ["sad"; "happy"] "happy"
       = Py.Ok sorted_vectors'
       /\ result = firstn 2 sorted_vectors'
       /\ get_comparisons no_stopwords toy_model ["sad"; "happy"] "happy" 2
          = Py.Ok (map (phrase_of ["sad"; "happy"]) result)
       /\ descending result
       /\ StronglySorted ranked_before result.
Proof.
  assert (Hh : nonzero_norm (phrase_vector no_stopwords toy_model "happy")).
  { rewrite vector_happy. apply nonzero_norm_fin.
    rewrite norm_happy. apply R1_neq_R0. }
  assert (Hs : nonzero_norm (phrase_vector no_stopwords toy_model "sad")).
  { rewrite vector_sad. apply nonzero_norm_fin.
    rewrite norm_sad. apply R1_neq_R0. }
  assert (Hc : Forall
                 (fun p => nonzero_norm
                             (phrase_vector no_stopwords toy_model p))
                 ["sad"; "happy"]).
  { repeat constructor; assumption. }
  assert (Hn : (0 <= 2 <= Z.of_nat (length ["sad"; "happy"]))%Z).
  { simpl. lia. }
  split; [exact Hh|]. split; [exact Hc|].
  destruct (ranking_descending_stable no_stopwords toy_model
              ["sad"; "happy"] "happy" 2 Hh Hc Hn)
    as [sv [result [H1 [H2 [H3 [_ [H5 H6]]]]]]].
  exists sv, result. repeat split; assumption.
Defined.

(** The ranking of the corpus "sad", "zzz", "happy" for the query "happy":
    the phrase of unknown words has the score NaN, which no comparison
    moves, and the phrases stay in the order of the corpus. *)
Lemma ranking_with_unknown :
  ranking no_stopwords toy_model ["sad"; "zzz"; "happy"] "happy"
  = [(0, Fin 0%R); (1, NaN); (2, Fin 1%R)].
Proof.
  unfold ranking, scores, Py.enumerate.
  cbn [map length seq combine fst snd].
  rewrite vector_sad, vector_zzz, vector_happy.
  rewrite score_sad_happy, score_happy_happy.
  rewrite score_zzz by (now rewrite length_map; unfold unit_vector;
                        rewrite length_map, length_seq).
  now apply sorted_ascending_run.
Qed.

(** C6 as the specification states it fails: for the corpus "sad", "zzz",
    "happy" and the query "happy", the three phrases come back in the order
    of the corpus, with the scores 0, NaN and 1: the scores are not in
    descending order, and the phrase equal to the query is last. *)
Lemma ranking_order_counterexample :
  get_comparisons no_stopwords toy_model ["sad"; "zzz"; "happy"] "happy" 3
  = Py.Ok ["sad"; "zzz"; "happy"]
  /\ sorted_vectors no_stopwords toy_model ["sad"; "zzz"; "happy"] "happy"
     = Py.Ok [(0, Fin 0%R); (1, NaN); (2, Fin 1%R)]
  /\ ~ descending [(0, Fin 0%R); (1, NaN); (2, Fin 1%R)]
  /\ Float.geb (Fin 0%R) NaN = false
  /\ Float.geb NaN (Fin 1%R) = false.
Proof.
  split; [|split; [|split; [|split]]].
  - rewrite get_comparisons_within by (simpl; lia).
    rewrite ranking_with_unknown. reflexivity.
  - rewrite sorted_vectors_ok. now rewrite ranking_with_unknown.
  - intros H.
    specialize (H 0 (0, Fin 0%R) (1, NaN) eq_refl eq_refl).
    discriminate H.
  - reflexivity.
  - reflexivity.
Qed.

Lemma unknown_sum (googledata_model : KeyedVectors) (ws : list string)
      (k : nat) :
  Forall (fun w => kv_get googledata_model w = None) ws ->
  RVec.sum (map (fun v => nth k v 0%R)
                (map (token_vector googledata_model) ws)) = 0%R.
Proof.
  unfold RVec.sum.
  induction 1 as [|w ws Hw _ IH]; cbn [map fold_right]; [reflexivity|].
  rewrite IH. unfold token_vector. rewrite Hw, nth_repeat_zero. ring.
Qed.

(** A phrase whose words are all unknown is not set aside, whatever the
    table, the corpus and the query: its vector is the zero vector, its
    score is NaN, it has its entry in the ranking, and a query for as many
    phrases as the corpus holds returns it with all the others. *)
Lemma unknown_phrase_never_excluded
      (stopwords : string -> bool) (googledata_model : KeyedVectors)
      (interesting_phrases : list string) (phrase p : string) (i : nat) :
  nth_error interesting_phrases i = Some p ->
  phrase_words stopwords p <> [] ->
  Forall (fun w => kv_get googledata_model w = None)
         (phrase_words stopwords p) ->
  phrase_vector stopwords googledata_model p = Np.zeros 300
  /\ In (i, NaN)
        (ranking stopwords googledata_model interesting_phrases phrase)
  /\ exists output,
       get_comparisons stopwords googledata_model interesting_phrases phrase
                       (Z.of_nat (length interesting_phrases))
       = Py.Ok output
       /\ Permutation output interesting_phrases
       /\ In p output.
Proof.
  intros Hi Hne Hun.
  assert (Hv : phrase_vector stopwords googledata_model p = Np.zeros 300).
  { rewrite phrase_vector_mean by assumption.
    rewrite (zeros_fin 300). f_equal. unfold arithmetic_mean.
    apply (nth_ext _ _ (mean_component
                          (map (token_vector googledata_model)
                               (phrase_words stopwords p)) 0) 0%R).
    - now rewrite length_map, length_seq, repeat_length.
    - intros k Hk. rewrite length_map, length_seq in Hk.
      rewrite map_nth, seq_nth, (nth_repeat_zero 300 k) by exact Hk.
      unfold mean_component. simpl (0 + k).
      rewrite unknown_sum by assumption. unfold Rdiv. ring. }
  assert (Hp : Permutation
                 (map (phrase_of interesting_phrases)
                      (ranking stopwords googledata_model
                               interesting_phrases phrase))
                 interesting_phrases).
  { unfold ranking. rewrite (sorted_perm _ _).
    change (phrase_of interesting_phrases)
      with (fun item : nat * float =>
              (fun k => nth k interesting_phrases EmptyString) (fst item)).
    rewrite <- (map_map fst), scores_fst.
    rewrite (map_nth_seq interesting_phrases EmptyString) by lia.
    now rewrite firstn_all. }
  split; [exact Hv|]. split.
  - pose proof (ranking_complete stopwords googledata_model
                  interesting_phrases phrase i p Hi) as H.
    rewrite Hv, (zeros_fin 300), score_zzz in H; trivial.
    apply phrase_vector_length.
  - eexists. split; [|split].
    + apply get_comparisons_within. lia.
    + rewrite Nat2Z.id, <- (ranking_length stopwords googledata_model
                              interesting_phrases phrase) at 1.
      now rewrite firstn_all.
    + rewrite Nat2Z.id, <- (ranking_length stopwords googledata_model
                              interesting_phrases phrase) at 1.
      rewrite firstn_all.
      apply (Permutation_in _ (Permutation_sym Hp)).
      now apply (nth_error_In _ i).
Qed.

(** C3.  The corpus holds the one phrase "zzz", whose only word the table
    does not know: its vector is the zero vector, the filter on None keeps
    it, its score for the query "happy" is NaN and the query for one
    phrase returns it. *)
Theorem unknown_phrase_is_returned :
  kv_get toy_model "zzz" = None
  /\ phrase_vector no_stopwords toy_model "zzz" = Np.zeros 300
  /\ zero_norm (phrase_vector no_stopwords toy_model "zzz")
  /\ numbered_vectors no_stopwords toy_model ["zzz"] = [(0, Np.zeros 300)]
  /\ sorted_vectors no_stopwords toy_model ["zzz"] "happy"
     = Py.Ok [(0, NaN)]
  /\ get_comparisons no_stopwords toy_model ["zzz"] "happy" 1
     = Py.Ok ["zzz"].
Proof.
  assert (Hv : phrase_vector no_stopwords toy_model "zzz" = Np.zeros 300).
  { rewrite vector_zzz. symmetry. apply zeros_fin. }
  assert (Hr : ranking no_stopwords toy_model ["zzz"] "happy" = [(0, NaN)]).
  { unfold ranking, scores, Py.enumerate.
    cbn [map length seq combine fst snd].
    rewrite vector_zzz, score_zzz by apply phrase_vector_length.
    reflexivity. }
  split; [reflexivity|]. split; [exact Hv|]. split; [|split; [|split]].
  - rewrite vector_zzz. apply zero_norm_fin, norm_zeros.
  - rewrite numbered_vectors_all. unfold Py.enumerate.
    cbn [map length seq combine]. now rewrite Hv.
  - rewrite sorted_vectors_ok. now rewrite Hr.
  - rewrite get_comparisons_within by (simpl; lia).
    rewrite Hr. reflexivity.
Qed.

(** * Further properties of the notebook *)

(** ** [str.strip] *)

Section StrStrip.

Import Str.

Lemma lower_char_idempotent (c : ascii) :
  lower_char (lower_char c) = lower_char c.
Proof. destruct c as [[] [] [] [] [] [] [] []]; reflexivity. Qed.

Lemma lower_idempotent (s : string) : lower (lower s) = lower s.
Proof.
  induction s as [|c s IH]; simpl; trivial.
  now rewrite lower_char_idempotent, IH.
Qed.

Lemma lstrip_first (s : string) (c : ascii) :
  first_char (lstrip s) = Some c -> isspace c = false.
Proof.
  induction s as [|d s IH]; simpl; [discriminate|].
  destruct (isspace d) eqn:E; trivial.
  simpl. intros H. injection H as <-. exact E.
Qed.

Lemma rstrip_nil (s : string) :
  rstrip s = EmptyString <-> Forall (fun c => isspace c = true) (chars s).
Proof.
  induction s as [|c s IH]; simpl.
  - split; auto.
  - destruct (rstrip s) eqn:E.
    + destruct (isspace c) eqn:Ec; split; intros H; trivial.
      * constructor; trivial. now apply IH.
      * discriminate.
      * inversion H; congruence.
    + split; [discriminate|]. intros H. inversion H as [|? ? _ Hs].
      apply IH in Hs. discriminate.
Qed.

Lemma rstrip_first (s : string) :
  rstrip s <> EmptyString -> first_char (rstrip s) = first_char s.
Proof.
  destruct s as [|c s]; simpl; trivial.
  destruct (rstrip s); [destruct (isspace c)|]; simpl; congruence.
Qed.

Lemma rstrip_last (s : string) (c : ascii) :
  last_char (rstrip s) = Some c -> isspace c = false.
Proof.
  induction s as [|d s IH]; simpl; [discriminate|].
  destruct (rstrip s) as [|e kept] eqn:E.
  - destruct (isspace d) eqn:Ed; simpl; [discriminate|].
    intros H. injection H as <-. exact Ed.
  - intros H. apply IH. exact H.
Qed.

Lemma lstrip_clean_start (s : string) :
  (forall c, first_char s = Some c -> isspace c = false) -> lstrip s = s.
Proof.
  destruct s as [|c s]; simpl; trivial.
  intros H. now rewrite (H c eq_refl).
Qed.

Lemma rstrip_clean_end (s : string) :
  (forall c, last_char s = Some c -> isspace c = false) -> rstrip s = s.
Proof.
  induction s as [|c s IH]; simpl; trivial.
  intros H. destruct s as [|d s].
  - simpl. now rewrite (H c eq_refl).
  - rewrite IH by exact H. reflexivity.
Qed.

Lemma str_strip_first (s : string) (c : ascii) :
  first_char (strip s) = Some c -> isspace c = false.
Proof.
  unfold strip. intros H.
  destruct (rstrip (lstrip s)) eqn:E; [discriminate|].
  rewrite <- E in H. rewrite rstrip_first in H by congruence.
  now apply (lstrip_first s).
Qed.

Lemma str_strip_last (s : string) (c : ascii) :
  last_char (strip s) = Some c -> isspace c = false.
Proof. unfold strip. apply rstrip_last. Qed.

Lemma str_strip_idempotent (s : string) : strip (strip s) = strip s.
Proof.
  unfold strip at 1.
  rewrite (lstrip_clean_start (strip s)) by apply str_strip_first.
  apply rstrip_clean_end, str_strip_last.
Qed.

(** Whitespace at either end does not change the words. *)
Lemma split_scan_lstrip (s : string) :
  split_scan EmptyString (lstrip s) = split_scan EmptyString s.
Proof.
  induction s as [|c s IH]; simpl; trivial.
  destruct (isspace c) eqn:E; trivial. simpl. now rewrite E.
Qed.

Lemma split_scan_blank (s : string) (word : string) :
  Forall (fun c => isspace c = true) (chars s) ->
  split_scan word s = split_scan word EmptyString.
Proof.
  revert word. induction s as [|c s IH]; intros word H; trivial.
  inversion H as [|? ? Hc Hs]; subst. simpl. rewrite Hc.
  destruct word; rewrite IH by exact Hs; reflexivity.
Qed.

Lemma split_scan_rstrip (s : string) (word : string) :
  split_scan word (rstrip s) = split_scan word s.
Proof.
  revert word. induction s as [|c s IH]; intros word; simpl; trivial.
  destruct (rstrip s) as [|e kept] eqn:E.
  - assert (Hs : Forall (fun c => isspace c = true) (chars s))
      by now apply rstrip_nil.
    destruct (isspace c) eqn:Ec; simpl; rewrite ?Ec.
    + destruct word; now rewrite split_scan_blank.
    + now rewrite split_scan_blank.
  - simpl. destruct (isspace c); [destruct word|]; now rewrite <- IH.
Qed.

Lemma split_strip (s : string) : split (strip s) = split s.
Proof.
  unfold split, strip. now rewrite split_scan_rstrip, split_scan_lstrip.
Qed.

Lemma lower_lstrip (s : string) : lower (lstrip s) = lstrip (lower s).
Proof.
  induction s as [|c s IH]; simpl; trivial.
  rewrite lower_keeps_space. destruct (isspace c); trivial.
Qed.

Lemma lower_rstrip (s : string) : lower (rstrip s) = rstrip (lower s).
Proof.
  induction s as [|c s IH]; simpl; trivial.
  rewrite <- IH, lower_keeps_space.
  destruct (rstrip s); simpl; trivial. destruct (isspace c); trivial.
Qed.

Lemma phrase_words_strip (stopwords : string -> bool) (s : string) :
  phrase_words stopwords (strip s) = phrase_words stopwords s.
Proof.
  rewrite !phrase_words_split. unfold strip.
  rewrite lower_rstrip, lower_lstrip. apply (split_strip (lower s)).
Qed.

End StrStrip.

(** ** The substitution of the bracketed notes *)

Section Brackets.

Import Re.

(** What is left of a line after a match holds no closing bracket, and the
    substitution puts none on the first line that was not there. *)
Lemma closes_after_sub (s : string) :
  (closes_on_line (sub_scan false s) = true -> closes_on_line s = true)
  /\ (closes_on_line s = true -> closes_on_line (sub_scan true s) = false).
Proof.
  induction s as [|c s [IHo IHi]]; simpl.
  - split; intros H; discriminate.
  - split.
    + destruct (Ascii.eqb c open_bracket && closes_on_line s) eqn:E.
      * apply andb_prop in E. destruct E as [_ E].
        rewrite (IHi E). discriminate.
      * simpl. destruct (Ascii.eqb c newline); trivial.
        destruct (Ascii.eqb c close_bracket); trivial.
    + destruct (Ascii.eqb c newline); [discriminate|].
      destruct (Ascii.eqb c close_bracket) eqn:Ec; simpl.
      * intros _. destruct (closes_on_line s) eqn:Es; simpl.
        -- now apply IHi.
        -- destruct (closes_on_line (sub_scan false s)); trivial.
           discriminate (IHo eq_refl).
      * exact IHi.
Qed.

Lemma no_match_after_sub (s : string) :
  has_match (sub_scan false s) = false
  /\ (closes_on_line s = true -> has_match (sub_scan true s) = false).
Proof.
  induction s as [|c s [IHo IHi]]; simpl.
  - split; trivial.
  - split.
    + destruct (Ascii.eqb c open_bracket && closes_on_line s) eqn:E.
      * apply andb_prop in E. destruct E as [_ E]. now apply IHi.
      * simpl. rewrite IHo, orb_false_r.
        destruct (Ascii.eqb c open_bracket); trivial. simpl in E |- *.
        destruct (closes_on_line (sub_scan false s)) eqn:F; trivial.
        apply (proj1 (closes_after_sub s)) in F. congruence.
    + destruct (Ascii.eqb c newline); [discriminate|].
      destruct (Ascii.eqb c close_bracket) eqn:Ec; simpl.
      * intros _. destruct (closes_on_line s) eqn:Es; simpl; auto.
      * exact IHi.
Qed.

(** Where the expression has no match, the substitution changes
    nothing. *)
Lemma sub_without_match (s : string) :
  has_match s = false -> sub_brackets s = s.
Proof.
  unfold sub_brackets. induction s as [|c s IH]; simpl; trivial.
  intros H. apply orb_false_elim in H. destruct H as [H1 H2].
  rewrite H1. now rewrite IH.
Qed.

Lemma has_match_lstrip (s : string) :
  has_match (Str.lstrip s) = true -> has_match s = true.
Proof.
  induction s as [|c s IH]; simpl; trivial.
  destruct (Str.isspace c) eqn:E; trivial.
  intros H. rewrite (IH H). apply orb_true_r.
Qed.

Lemma closes_rstrip (s : string) :
  closes_on_line (Str.rstrip s) = true -> closes_on_line s = true.
Proof.
  induction s as [|c s IH]; simpl; trivial.
  destruct (Str.rstrip s) as [|e kept] eqn:E.
  - destruct (Str.isspace c) eqn:Ec; simpl; [discriminate|].
    destruct (Ascii.eqb c newline); trivial.
    destruct (Ascii.eqb c close_bracket); trivial.
  - cbn [closes_on_line].
    destruct (Ascii.eqb c newline); trivial.
    destruct (Ascii.eqb c close_bracket); trivial.
Qed.

Lemma has_match_rstrip (s : string) :
  has_match (Str.rstrip s) = true -> has_match s = true.
Proof.
  induction s as [|c s IH]; simpl; trivial.
  destruct (Str.rstrip s) as [|e kept] eqn:E.
  - destruct (Str.isspace c) eqn:Ec; simpl; [discriminate|].
    rewrite andb_false_r. discriminate.
  - cbn [has_match]. intros H. apply orb_prop in H. destruct H as [H|H].
    + apply andb_prop in H. destruct H as [H1 H2].
      rewrite H1. rewrite <- E in H2. now rewrite (closes_rstrip s H2).
    + rewrite (IH H). apply orb_true_r.
Qed.

Lemma has_match_strip (s : string) :
  has_match s = false -> has_match (Str.strip s) = false.
Proof.
  intros H. unfold Str.strip.
  destruct (has_match (Str.rstrip (Str.lstrip s))) eqn:E; trivial.
  apply has_match_rstrip, has_match_lstrip in E. congruence.
Qed.

(** The first match: before it no opening bracket, in it no newline, and
    after it no closing bracket on the line. *)
Lemma sub_scan_inside (note rest : string) :
  Forall (fun c => c <> newline) (Str.chars note) ->
  closes_on_line rest = false ->
  sub_scan true (note ++ String close_bracket rest) = sub_scan false rest.
Proof.
  intros Hn Hr. induction note as [|c note IH]; simpl.
  - now rewrite Hr.
  - inversion Hn as [|? ? Hc Hn']; subst.
    assert (E : closes_on_line (note ++ String close_bracket rest) = true).
    { clear - Hn'. induction note as [|d note IH]; simpl; trivial.
      inversion Hn' as [|? ? Hd Hn'']; subst.
      apply Ascii.eqb_neq in Hd. rewrite Hd.
      destruct (Ascii.eqb d close_bracket); auto. }
    rewrite E, andb_false_r. now apply IH.
Qed.

Lemma closes_note (note rest : string) :
  Forall (fun c => c <> newline) (Str.chars note) ->
  closes_on_line (note ++ String close_bracket rest) = true.
Proof.
  induction note as [|d note IH]; intros Hn; simpl; trivial.
  inversion Hn as [|? ? Hd Hn']; subst.
  apply Ascii.eqb_neq in Hd. rewrite Hd.
  destruct (Ascii.eqb d close_bracket); auto.
Qed.

Lemma sub_first_match (before note rest : string) :
  Forall (fun c => c <> open_bracket) (Str.chars before) ->
  Forall (fun c => c <> newline) (Str.chars note) ->
  closes_on_line rest = false ->
  sub_brackets
    (before ++ String open_bracket (note ++ String close_bracket rest))
  = (before ++ sub_brackets rest)%string.
Proof.
  intros Hb Hn Hr. unfold sub_brackets.
  induction before as [|c before IH]; simpl.
  - rewrite closes_note by exact Hn. simpl. now apply sub_scan_inside.
  - inversion Hb as [|? ? Hc Hb']; subst.
    apply Ascii.eqb_neq in Hc. rewrite Hc. simpl. now rewrite IH.
Qed.

End Brackets.

(** ** The cosine of real vectors *)

Section Cosine.

Local Open Scope R_scope.

Lemma dot_comm (a b : list R) : RVec.dot a b = RVec.dot b a.
Proof.
  unfold RVec.dot, RVec.sum. revert b.
  induction a as [|x a IH]; intros [|y b]; simpl; trivial.
  rewrite IH. ring.
Qed.

(** Cauchy and Schwarz. *)
Lemma dot_square_le (a b : list R) :
  RVec.dot a b * RVec.dot a b <= RVec.dot a a * RVec.dot b b.
Proof.
  revert b. induction a as [|x a IH]; intros b.
  - destruct b; unfold RVec.dot, RVec.sum; simpl; lra.
  - destruct b as [|y b].
    + unfold RVec.dot at 1 2 4. unfold RVec.sum. simpl. lra.
    + specialize (IH b).
      pose proof (dot_self_nonneg a) as Ha.
      pose proof (dot_self_nonneg b) as Hb.
      unfold RVec.dot, RVec.sum in *. simpl.
      set (d := fold_right Rplus 0 (RVec.products a b)) in *.
      set (A := fold_right Rplus 0 (RVec.products a a)) in *.
      set (B := fold_right Rplus 0 (RVec.products b b)) in *.
      clearbody d A B.
      assert (H : 2 * (x * y * d) <= x * x * B + y * y * A).
      { destruct (Rle_lt_dec A 0) as [HA|HA].
        - assert (A = 0) by lra. subst A.
          assert (d = 0) by nra. subst d.
          pose proof (Rle_0_sqr x) as Hx. unfold Rsqr in Hx. nra.
        - pose proof (Rle_0_sqr (x * d - y * A)) as Hs. unfold Rsqr in Hs.
          pose proof (Rle_0_sqr x) as Hx. unfold Rsqr in Hx.
          assert (HA2 : A * (2 * (x * y * d))
                        <= A * (x * x * B + y * y * A)) by nra.
          apply (Rmult_le_reg_l A); assumption. }
      nra.
Qed.

Lemma dot_le_norms (a b : list R) :
  Rabs (RVec.dot a b) <= RVec.norm a * RVec.norm b.
Proof.
  unfold RVec.norm.
  rewrite <- sqrt_mult by apply dot_self_nonneg.
  rewrite <- sqrt_Rsqr_abs. apply sqrt_le_1_alt.
  unfold Rsqr. apply dot_square_le.
Qed.

Lemma norm_nonneg (a : list R) : 0 <= RVec.norm a.
Proof. apply sqrt_pos. Qed.

Lemma cosine_range (a b : list R) :
  RVec.norm a <> 0 -> RVec.norm b <> 0 ->
  -1 <= RVec.cosine a b <= 1.
Proof.
  intros Ha Hb. unfold RVec.cosine.
  pose proof (norm_nonneg a) as Pa. pose proof (norm_nonneg b) as Pb.
  assert (P : 0 < RVec.norm a * RVec.norm b) by nra.
  pose proof (dot_le_norms a b) as H.
  pose proof (Rle_abs (RVec.dot a b)) as H2.
  pose proof (Rle_abs (- RVec.dot a b)) as H1. rewrite Rabs_Ropp in H1.
  split.
  - apply (Rmult_le_reg_r (RVec.norm a * RVec.norm b)); trivial.
    unfold Rdiv. rewrite Rmult_assoc, Rinv_l by lra. lra.
  - apply (Rmult_le_reg_r (RVec.norm a * RVec.norm b)); trivial.
    unfold Rdiv. rewrite Rmult_assoc, Rinv_l by lra. lra.
Qed.





Lemma rsum_perm (l1 l2 : list R) :
  Permutation l1 l2 -> RVec.sum l1 = RVec.sum l2.
Proof.
  unfold RVec.sum. induction 1; simpl; lra.
Qed.

End Cosine.

(** ** More on [phrase_vector] *)

Section MoreVectors.

Local Open Scope R_scope.

Variable stopwords : string -> bool.
Variable googledata_model : KeyedVectors.

(** The vector depends on the phrase through its words only. *)
Lemma phrase_vector_words (stopwords' : string -> bool) (p1 p2 : string) :
  phrase_words stopwords p1 = phrase_words stopwords' p2 ->
  phrase_vector stopwords googledata_model p1
  = phrase_vector stopwords' googledata_model p2.
Proof. intros H. unfold phrase_vector. now rewrite H. Qed.

Lemma phrase_words_tokens (p : string) :
  Forall (fun w => w <> EmptyString /\ Str.clean w /\ Str.lowercase w)
         (phrase_words stopwords p).
Proof.
  rewrite phrase_words_split.
  pose proof (split_scan_tokens (Str.lower p) EmptyString (Forall_nil _))
    as Ht.
  fold (Str.split (Str.lower p)) in Ht.
  rewrite Forall_forall in *. intros w Hw.
  destruct (Ht w Hw) as [Hne Hcl]. repeat split; trivial.
  unfold Str.lowercase. rewrite Forall_forall. intros c Hin.
  assert (Hcat : In c (concat (map Str.chars (Str.split (Str.lower p))))).
  { apply in_concat. exists (Str.chars w). split; trivial.
    now apply in_map. }
  unfold Str.split in Hcat. rewrite split_scan_concat in Hcat.
  simpl in Hcat. apply filter_In in Hcat. destruct Hcat as [Hcat _].
  rewrite chars_lower in Hcat.
  apply in_map_iff in Hcat. destruct Hcat as [c' [<- _]].
  apply lower_char_not_upper.
Qed.

Lemma mean_perm (vs1 vs2 : list (list R)) :
  Permutation vs1 vs2 -> arithmetic_mean vs1 = arithmetic_mean vs2.
Proof.
  intros H. unfold arithmetic_mean. apply map_ext. intros i.
  unfold mean_component.
  rewrite (rsum_perm _ _ (Permutation_map (fun v => nth i v 0) H)).
  now rewrite (Permutation_length H).
Qed.

Lemma phrase_vector_perm (p1 p2 : string) :
  Permutation (phrase_words stopwords p1) (phrase_words stopwords p2) ->
  phrase_vector stopwords googledata_model p1
  = phrase_vector stopwords googledata_model p2.
Proof.
  intros H. destruct (phrase_words stopwords p1) as [|w ws] eqn:E1.
  - apply Permutation_nil in H.
    rewrite !phrase_vector_no_word; trivial.
  - assert (E2 : phrase_words stopwords p2 <> []).
    { intros E. rewrite E in H. apply Permutation_sym in H.
      apply Permutation_nil in H. discriminate. }
    rewrite !phrase_vector_mean by congruence.
    f_equal. apply mean_perm. rewrite E1. now apply Permutation_map.
Qed.


Lemma fold_left_agree {A B : Type} (f g : A -> B -> A) (l : list B) (a : A) :
  (forall x y, In y l -> f x y = g x y) ->
  fold_left f l a = fold_left g l a.
Proof.
  revert a. induction l as [|y l IH]; intros a H; simpl; trivial.
  rewrite (H a y) by now left. apply IH. intros x z Hz. apply H. now right.
Qed.

End MoreVectors.

(** ** More on [similarity] *)

Section MoreSimilarity.

Local Open Scope R_scope.

Lemma float_mul_comm (x y : float) : Float.mul x y = Float.mul y x.
Proof. destruct x, y; simpl; trivial. f_equal. ring. Qed.

Lemma score_comm (v q : Np.ndarray) : score v q = score q v.
Proof.
  unfold score. now rewrite products_comm, float_mul_comm.
Qed.

Lemma sum_nan (l : Np.ndarray) : In NaN l -> Np.sum l = NaN.
Proof.
  unfold Np.sum. induction l as [|x l IH]; simpl; [easy|].
  intros [->|H]; trivial.
  rewrite (IH H). now destruct x.
Qed.

Lemma products_nan (v q : Np.ndarray) :
  length v = length q -> In NaN v -> In NaN (Np.products v q).
Proof.
  revert q. induction v as [|x v IH]; intros [|y q] Hl H; simpl in *;
    try easy.
  destruct H as [->|H]; [now left|].
  right. apply IH; congruence.
Qed.

Lemma div_nan_l (y : float) : Float.div NaN y = NaN.
Proof. reflexivity. Qed.

Lemma div_nan_r (x : float) : Float.div x NaN = NaN.
Proof. now destruct x. Qed.

Lemma mul_nan_r (x : float) : Float.mul x NaN = NaN.
Proof. now destruct x. Qed.

Lemma score_nan_component (v q : Np.ndarray) :
  length v = length q -> In NaN v -> score v q = NaN.
Proof.
  intros Hl H. unfold score.
  now rewrite (sum_nan _ (products_nan v q Hl H)).
Qed.

Lemma score_nan_norm_r (v q : Np.ndarray) :
  Np.norm q = NaN -> score v q = NaN.
Proof.
  intros H. unfold score. now rewrite H, mul_nan_r, div_nan_r.
Qed.


Lemma score_range (v q : Np.ndarray) :
  nonzero_norm v -> nonzero_norm q ->
  exists s, score v q = Fin s /\ -1 <= s <= 1.
Proof.
  intros Hv Hq.
  apply nonzero_norm_reals in Hv. destruct Hv as [Hv Hvn].
  apply nonzero_norm_reals in Hq. destruct Hq as [Hq Hqn].
  exists (RVec.cosine (reals v) (reals q)). split.
  - rewrite Hv at 1. rewrite Hq at 1. now apply score_fin.
  - now apply cosine_range.
Qed.


End MoreSimilarity.

(** ** More on [get_comparisons] *)

Section MoreComparisons.

Local Open Scope R_scope.

Variable stopwords : string -> bool.
Variable googledata_model : KeyedVectors.
Variable interesting_phrases : list string.
Variable phrase : string.

Lemma phrases_of_seq :
  map (fun k => nth k interesting_phrases EmptyString)
      (seq 0 (length interesting_phrases))
  = interesting_phrases.
Proof.
  rewrite (map_nth_seq interesting_phrases EmptyString) by lia.
  apply firstn_all.
Qed.

Lemma phrases_of_scores :
  map (phrase_of interesting_phrases)
      (scores stopwords googledata_model interesting_phrases phrase)
  = interesting_phrases.
Proof.
  change (phrase_of interesting_phrases)
    with (fun item : nat * float =>
            (fun k => nth k interesting_phrases EmptyString) (fst item)).
  rewrite <- (map_map fst), scores_fst. apply phrases_of_seq.
Qed.

Lemma ranking_phrases_perm :
  Permutation
    (map (phrase_of interesting_phrases)
         (ranking stopwords googledata_model interesting_phrases phrase))
    interesting_phrases.
Proof.
  unfold ranking. rewrite (sorted_perm _ _). now rewrite phrases_of_scores.
Qed.

(** A phrase without a known word: no word at all, or unknown words
    only. *)
Lemma wordless_vector (p : string) :
  Forall (fun w => kv_get googledata_model w = None)
         (phrase_words stopwords p) ->
  Np.norm (phrase_vector stopwords googledata_model p) = NaN
  \/ zero_norm (phrase_vector stopwords googledata_model p).
Proof.
  intros Hun. destruct (phrase_words stopwords p) as [|w ws] eqn:E.
  - left. rewrite phrase_vector_no_word by exact E.
    now apply norm_nan.
  - right. rewrite phrase_vector_mean by congruence.
    apply zero_norm_fin. rewrite E.
    replace (arithmetic_mean (map (token_vector googledata_model) (w :: ws)))
      with (repeat 0 D); [apply norm_zeros|].
    unfold arithmetic_mean.
    apply (nth_ext _ _ 0
             (mean_component
                (map (token_vector googledata_model) (w :: ws)) 0)).
    + now rewrite length_map, length_seq, repeat_length.
    + intros k Hk. rewrite repeat_length in Hk.
      rewrite map_nth, seq_nth, (nth_repeat_zero D k) by exact Hk.
      unfold mean_component. simpl (0 + k)%nat.
      rewrite unknown_sum by assumption. unfold Rdiv. ring.
Qed.

Lemma score_wordless_r (v : Np.ndarray) (p : string) :
  length v = D ->
  Forall (fun w => kv_get googledata_model w = None)
         (phrase_words stopwords p) ->
  score v (phrase_vector stopwords googledata_model p) = NaN.
Proof.
  intros Hl Hun. destruct (wordless_vector p Hun) as [H|H].
  - now apply score_nan_norm_r.
  - apply score_zero_norm_any; [|now right].
    now rewrite phrase_vector_length.
Qed.

Lemma ascending_all_nan (l : list (nat * float)) :
  Forall (fun item => snd item = NaN) l ->
  ascending_run (fun item => Float.neg (snd item)) l = true.
Proof.
  induction 1 as [|x l Hx Hl IH]; trivial.
  destruct l as [|y l]; trivial.
  change (negb (Float.ltb (Float.neg (snd y)) (Float.neg (snd x)))
          && ascending_run (fun item => Float.neg (snd item)) (y :: l)
          = true).
  rewrite IH, andb_true_r.
  inversion Hl as [|? ? Hy _]; subst. now rewrite Hy.
Qed.

Lemma ranking_wordless_query :
  Forall (fun w => kv_get googledata_model w = None)
         (phrase_words stopwords phrase) ->
  ranking stopwords googledata_model interesting_phrases phrase
  = map (fun k => (k, NaN)) (seq 0 (length interesting_phrases)).
Proof.
  intros Hun.
  assert (Hs : scores stopwords googledata_model interesting_phrases phrase
               = map (fun k => (k, NaN))
                     (seq 0 (length interesting_phrases))).
  { unfold scores.
    rewrite (map_ext_in _ (fun item => (fun k => (k, NaN)) (fst item))).
    - rewrite <- (map_map fst (fun k => (k, NaN))), enumerate_fst.
      now rewrite length_map.
    - intros [i v] Hin. simpl. f_equal.
      apply score_wordless_r; trivial.
      apply (in_map snd) in Hin. rewrite enumerate_snd in Hin.
      simpl in Hin. apply in_map_iff in Hin. destruct Hin as [p [<- _]].
      apply phrase_vector_length. }
  unfold ranking. rewrite Hs. apply sorted_ascending_run.
  apply ascending_all_nan. rewrite Forall_map. apply Forall_forall. easy.
Qed.

End MoreComparisons.

(** * What else the notebook guarantees *)

(** ** [strip] *)

Example strip_example :
  strip (Some "  A man of iron [Obs.]  ") = "A man of iron".
Proof. reflexivity. Qed.

(** The phrase [strip] returns holds no bracketed note any more: none of
    its opening brackets has a closing bracket after it on the same
    line. *)
Theorem strip_leaves_no_note :
  forall x : option string, Re.has_match (strip x) = false.
Proof.
  intros x. unfold strip. apply has_match_strip.
  apply (proj1 (no_match_after_sub (py_str x))).
Qed.

(** The phrase [strip] returns neither starts nor ends with a whitespace
    character. *)
Theorem strip_is_trimmed :
  forall (x : option string) (c : ascii),
    Str.first_char (strip x) = Some c \/ Str.last_char (strip x) = Some c ->
    Str.isspace c = false.
Proof.
  intros x c [H|H]; unfold strip in H.
  - now apply (str_strip_first _ c H).
  - now apply (str_strip_last _ c H).
Qed.

Lemma strip_is_trimmed_witness :
  Str.first_char (strip (Some "  a [b] c ")) = Some "a"%char
  /\ Str.isspace "a"%char = false.
Proof.
  split; [reflexivity|].
  apply (strip_is_trimmed (Some "  a [b] c ") "a"%char).
  left. reflexivity.
Defined.

(** Stripping a phrase that was stripped changes nothing. *)
Theorem strip_twice :
  forall x : option string, strip (Some (strip x)) = strip x.
Proof.
  intros x. unfold strip at 1. simpl py_str.
  rewrite sub_without_match.
  - unfold strip. apply str_strip_idempotent.
  - unfold strip. apply has_match_strip.
    apply (proj1 (no_match_after_sub (py_str x))).
Qed.

(** The first note of a text: when the text before an opening bracket
    holds no opening bracket, the text up to a closing bracket holds no
    newline, and no closing bracket follows on the line, everything from
    the one bracket to the other is removed, the text before is kept, and
    the substitution goes on in what follows. *)
Theorem strip_first_note :
  forall before note rest : string,
    Forall (fun c => c <> Re.open_bracket) (Str.chars before) ->
    Forall (fun c => c <> Re.newline) (Str.chars note) ->
    Re.closes_on_line rest = false ->
    strip (Some (before ++ String Re.open_bracket
                   (note ++ String Re.close_bracket rest))%string)
    = Str.strip (before ++ Re.sub_brackets rest)%string.
Proof.
  intros before note rest Hb Hn Hr. unfold strip. simpl py_str.
  now rewrite sub_first_match.
Qed.

Lemma strip_first_note_witness :
  strip (Some "old [a] and [b] decrepit [c
] x")
  = "old  decrepit [c
] x".
Proof.
  apply (strip_first_note "old " "a] and [b" " decrepit [c
] x").
  - repeat constructor; discriminate.
  - repeat constructor; discriminate.
  - reflexivity.
Defined.

(** A text in which no opening bracket has a closing bracket after it on
    its line is only trimmed. *)
Theorem strip_text_without_note :
  forall s : string,
    Re.has_match s = false -> strip (Some s) = Str.strip s.
Proof.
  intros s H. unfold strip. simpl py_str. now rewrite sub_without_match.
Qed.

Lemma strip_text_without_note_witness :
  strip (Some " a] b [c
d] ") = "a] b [c
d]".
Proof.
  apply (strip_text_without_note " a] b [c
d] ").
  reflexivity.
Defined.

(** The trimming at the end of [strip] makes no difference to the vector
    of the phrase: it is the vector of the text after the substitution. *)
Theorem strip_trimming_keeps_vector :
  forall (stopwords : string -> bool) (googledata_model : KeyedVectors)
         (x : option string),
    phrase_vector stopwords googledata_model (strip x)
    = phrase_vector stopwords googledata_model
                    (Re.sub_brackets (py_str x)).
Proof.
  intros stopwords googledata_model x. apply phrase_vector_words.
  unfold strip. apply phrase_words_strip.
Qed.

(** A tag whose text is one bracketed note, with whitespace around it at
    most, becomes the empty phrase, and the vector of this phrase in
    [interesting_phrases_vectors] is the array of 300 NaN. *)
Theorem note_only_tag_has_nan_vector :
  forall (stopwords : string -> bool) (googledata_model : KeyedVectors)
         (before note rest : string),
    Forall (fun c => Str.isspace c = true) (Str.chars before) ->
    Forall (fun c => c <> Re.newline) (Str.chars note) ->
    Forall (fun c => Str.isspace c = true) (Str.chars rest) ->
    strip (Some (before ++ String Re.open_bracket
                   (note ++ String Re.close_bracket rest))%string)
    = EmptyString
    /\ interesting_phrases_vectors
         stopwords googledata_model
         (stripped_list
            [Some (before ++ String Re.open_bracket
                     (note ++ String Re.close_bracket rest))%string])
       = [Some (repeat NaN 300)].
Proof.
  intros stopwords googledata_model before note rest Hb Hn Hr.
  assert (Hspace : forall c, Str.isspace c = true ->
                             Ascii.eqb c Re.open_bracket = false
                             /\ Ascii.eqb c Re.close_bracket = false).
  { intros c. destruct c as [[] [] [] [] [] [] [] []];
      try discriminate; auto. }
  assert (E : strip (Some (before ++ String Re.open_bracket
                             (note ++ String Re.close_bracket rest))%string)
              = EmptyString).
  { unfold strip. simpl py_str. rewrite sub_first_match; trivial.
    - rewrite sub_without_match.
      + unfold Str.strip. apply rstrip_nil.
        assert (Hall : Forall (fun c => Str.isspace c = true)
                              (Str.chars (before ++ rest)%string)).
        { rewrite chars_app. apply Forall_app. now split. }
        revert Hall. generalize (before ++ rest)%string. intros s Hs.
        induction s as [|c s IH]; simpl; [constructor|].
        inversion Hs as [|? ? Hc Hs']; subst. rewrite Hc. now apply IH.
      + clear - Hr Hspace. induction rest as [|c rest IH]; simpl; trivial.
        inversion Hr as [|? ? Hc Hr']; subst.
        rewrite (proj1 (Hspace c Hc)). simpl. now apply IH.
    - clear - Hb Hspace. induction before as [|c before IH]; simpl;
        constructor.
      + inversion Hb as [|? ? Hc _]; subst. intros ->.
        destruct (Hspace _ Hc) as [H _]. discriminate.
      + inversion Hb; subst. now apply IH.
    - clear - Hr Hspace. induction rest as [|c rest IH]; simpl; trivial.
      inversion Hr as [|? ? Hc Hr']; subst.
      rewrite (proj2 (Hspace c Hc)).
      destruct (Ascii.eqb c Re.newline); trivial. now apply IH. }
  split; [exact E|].
  unfold interesting_phrases_vectors, stripped_list. simpl map.
  rewrite E. now rewrite phrase_vector_no_word.
Qed.

Lemma note_only_tag_has_nan_vector_witness :
  strip (Some " [Obs.] ") = EmptyString
  /\ interesting_phrases_vectors no_stopwords toy_model
       (stripped_list [Some " [Obs.] "])
     = [Some (repeat NaN 300)].
Proof.
  apply (note_only_tag_has_nan_vector no_stopwords toy_model
           " " "Obs." " ").
  - repeat constructor.
  - repeat constructor; discriminate.
  - repeat constructor.
Defined.

(** ** [phrase_vector] *)

(** The case of the letters of a phrase makes no difference to its
    vector. *)
Theorem phrase_vector_ignores_case :
  forall (stopwords : string -> bool) (googledata_model : KeyedVectors)
         (phrase : string),
    phrase_vector stopwords googledata_model (Str.lower phrase)
    = phrase_vector stopwords googledata_model phrase.
Proof.
  intros stopwords googledata_model phrase. apply phrase_vector_words.
  rewrite !phrase_words_split. now rewrite lower_idempotent.
Qed.

(** Two phrases with the same words, in whatever order, have the same
    vector. *)
Theorem phrase_vector_ignores_word_order :
  forall (stopwords : string -> bool) (googledata_model : KeyedVectors)
         (p1 p2 : string),
    Permutation (phrase_words stopwords p1) (phrase_words stopwords p2) ->
    phrase_vector stopwords googledata_model p1
    = phrase_vector stopwords googledata_model p2.
Proof.
  intros stopwords googledata_model p1 p2. apply phrase_vector_perm.
Qed.

Lemma phrase_vector_ignores_word_order_witness :
  phrase_vector no_stopwords toy_model "sad and happy"
  = phrase_vector no_stopwords toy_model "Happy  and sad".
Proof.
  apply (phrase_vector_ignores_word_order no_stopwords toy_model
           "sad and happy" "Happy  and sad").
  change (Permutation ["sad"; "and"; "happy"] ["happy"; "and"; "sad"]).
  apply (perm_trans (l' := ["and"; "happy"; "sad"])).
  - apply (Permutation_cons_append ["and"; "happy"] "sad").
  - apply perm_swap.
Defined.

(** The table is read at keys that are non-empty, free of whitespace and
    in lower case, and at no other: two tables that agree on these keys
    give every phrase the same vector. *)
Theorem phrase_vector_reads_lowercase_keys :
  forall (stopwords : string -> bool) (model1 model2 : KeyedVectors),
    (forall w, w <> EmptyString -> Str.clean w -> Str.lowercase w ->
               kv_get model1 w = kv_get model2 w) ->
    forall phrase,
      phrase_vector stopwords model1 phrase
      = phrase_vector stopwords model2 phrase.
Proof.
  intros stopwords model1 model2 H phrase. unfold phrase_vector.
  f_equal. f_equal. apply fold_left_agree. intros acc w Hw.
  pose proof (phrase_words_tokens stopwords phrase) as Ht.
  rewrite Forall_forall in Ht. destruct (Ht w Hw) as [H1 [H2 H3]].
  unfold word_vector. now rewrite (H w H1 H2 H3).
Qed.

Lemma phrase_vector_reads_lowercase_keys_witness :
  kv_get toy_caps_model "Happy" <> kv_get toy_model "Happy"
  /\ phrase_vector no_stopwords toy_caps_model "Happy"
     = phrase_vector no_stopwords toy_model "Happy".
Proof.
  split; [discriminate|].
  apply (phrase_vector_reads_lowercase_keys no_stopwords
           toy_caps_model toy_model).
  intros w _ _ Hl. simpl. unfold toy_caps_get.
  destruct (String.eqb w "Happy") eqn:E; trivial.
  apply String.eqb_eq in E. subst w.
  unfold Str.lowercase in Hl. simpl in Hl.
  inversion Hl as [|? ? Hc _]. discriminate Hc.
Defined.

(** The vector of a phrase of one word is the vector the table has for
    the word. *)
Theorem one_word_phrase_vector :
  forall (stopwords : string -> bool) (googledata_model : KeyedVectors)
         (phrase w : string) (v : list R),
    phrase_words stopwords phrase = [w] ->
    kv_get googledata_model w = Some v ->
    phrase_vector stopwords googledata_model phrase = map Fin v.
Proof.
  intros stopwords googledata_model phrase w v Hw Hv.
  rewrite (phrase_vector_single _ _ _ w Hw).
  unfold token_vector. now rewrite Hv.
Qed.

Lemma one_word_phrase_vector_witness :
  phrase_vector some_stopwords toy_model "  Happy " = map Fin (unit_vector 0).
Proof.
  apply (one_word_phrase_vector some_stopwords toy_model "  Happy " "happy");
    reflexivity.
Defined.



(** ** [similarity] *)

(** The similarity does not depend on the order of its two arguments,
    error included. *)
Theorem similarity_symmetric :
  forall v q : Np.ndarray, similarity v q = similarity q v.
Proof.
  intros v q. unfold similarity, Np.inner.
  rewrite (Nat.eqb_sym (length q) (length v)).
  destruct (length v =? length q); trivial. simpl.
  now rewrite products_comm, float_mul_comm.
Qed.

(** For two arrays of the same length whose norms are real numbers other
    than zero, the similarity is a real number between -1 and 1. *)
Theorem similarity_in_range :
  forall v q : Np.ndarray,
    length v = length q ->
    nonzero_norm v -> nonzero_norm q ->
    exists s : R,
      similarity v q = Py.Ok (Fin s) /\ (-1 <= s <= 1)%R.
Proof.
  intros v q Hl Hv Hq. destruct (score_range v q Hv Hq) as [s [E Hs]].
  exists s. split; trivial. now rewrite similarity_score, E.
Qed.

Lemma similarity_in_range_witness :
  exists s : R,
    similarity (phrase_vector no_stopwords toy_model "sad")
               (phrase_vector no_stopwords toy_model "happy")
    = Py.Ok (Fin s) /\ (-1 <= s <= 1)%R.
Proof.
  apply (similarity_in_range (phrase_vector no_stopwords toy_model "sad")
                             (phrase_vector no_stopwords toy_model "happy")).
  - now rewrite !phrase_vector_length.
  - rewrite vector_sad. apply nonzero_norm_fin.
    rewrite norm_sad. apply R1_neq_R0.
  - rewrite vector_happy. apply nonzero_norm_fin.
    rewrite norm_happy. apply R1_neq_R0.
Defined.



(** A NaN among the components of either array makes the similarity NaN,
    and raises nothing. *)
Theorem similarity_nan_component :
  forall v q : Np.ndarray,
    length v = length q ->
    In NaN v \/ In NaN q ->
    similarity v q = Py.Ok NaN.
Proof.
  intros v q Hl H. rewrite similarity_score by exact Hl. f_equal.
  destruct H as [H|H].
  - now apply score_nan_component.
  - rewrite score_comm. now apply score_nan_component.
Qed.

Lemma similarity_nan_component_witness :
  similarity (phrase_vector no_stopwords toy_model "  ")
             (phrase_vector no_stopwords toy_model "happy")
  = Py.Ok NaN.
Proof.
  apply (similarity_nan_component
           (phrase_vector no_stopwords toy_model "  ")
           (phrase_vector no_stopwords toy_model "happy")).
  - now rewrite !phrase_vector_length.
  - left. rewrite phrase_vector_no_word by reflexivity. now left.
Defined.

(** ** [get_comparisons] *)

(** Asking for fewer phrases gives the start of the longer answer. *)
Theorem get_comparisons_prefix :
  forall (stopwords : string -> bool) (googledata_model : KeyedVectors)
         (interesting_phrases : list string) (phrase : string)
         (number more : Z),
    (0 <= number <= more)%Z ->
    (more <= Z.of_nat (length interesting_phrases))%Z ->
    exists output,
      get_comparisons stopwords googledata_model interesting_phrases
                      phrase more = Py.Ok output
      /\ get_comparisons stopwords googledata_model interesting_phrases
                         phrase number
         = Py.Ok (firstn (Z.to_nat number) output).
Proof.
  intros stopwords googledata_model interesting_phrases phrase number more
         Hn Hm.
  eexists. split; [apply get_comparisons_within; lia|].
  rewrite get_comparisons_within by lia. f_equal.
  rewrite firstn_map, firstn_firstn. f_equal. f_equal. lia.
Qed.

Lemma get_comparisons_prefix_witness :
  exists output,
    get_comparisons no_stopwords toy_model ["sad"; "zzz"; "happy"]
                    "happy" 3 = Py.Ok output
    /\ get_comparisons no_stopwords toy_model ["sad"; "zzz"; "happy"]
                       "happy" 1
       = Py.Ok (firstn 1 output).
Proof.
  apply (get_comparisons_prefix no_stopwords toy_model
           ["sad"; "zzz"; "happy"] "happy" 1 3); simpl; lia.
Defined.

(** The answer is made of phrases of the corpus, each as often as the
    corpus has it at most: together with the phrases that were not asked
    for, it is the corpus in another order. *)
Theorem get_comparisons_returns_corpus_phrases :
  forall (stopwords : string -> bool) (googledata_model : KeyedVectors)
         (interesting_phrases : list string) (phrase : string) (number : Z),
    (0 <= number <= Z.of_nat (length interesting_phrases))%Z ->
    exists output others,
      get_comparisons stopwords googledata_model interesting_phrases
                      phrase number = Py.Ok output
      /\ Permutation (output ++ others) interesting_phrases
      /\ length others = length interesting_phrases - Z.to_nat number.
Proof.
  intros stopwords googledata_model interesting_phrases phrase number Hn.
  exists (map (phrase_of interesting_phrases)
              (firstn (Z.to_nat number)
                 (ranking stopwords googledata_model interesting_phrases
                          phrase))).
  exists (map (phrase_of interesting_phrases)
              (skipn (Z.to_nat number)
                 (ranking stopwords googledata_model interesting_phrases
                          phrase))).
  split; [apply get_comparisons_within; lia|]. split.
  - rewrite <- map_app, firstn_skipn. apply ranking_phrases_perm.
  - now rewrite length_map, length_skipn, ranking_length.
Qed.

Lemma get_comparisons_returns_corpus_phrases_witness :
  exists output others,
    get_comparisons no_stopwords toy_model ["sad"; "zzz"; "happy"]
                    "happy" 2 = Py.Ok output
    /\ Permutation (output ++ others) ["sad"; "zzz"; "happy"]
    /\ length others = 1.
Proof.
  apply (get_comparisons_returns_corpus_phrases no_stopwords toy_model
           ["sad"; "zzz"; "happy"] "happy" 2).
  simpl. lia.
Defined.

(** A query without a known word, blank or made of unknown words, ranks
    nothing: every score is NaN, the sort moves no entry, and the answer is
    the start of the corpus in the order of the corpus. *)
Theorem wordless_query_returns_corpus_order :
  forall (stopwords : string -> bool) (googledata_model : KeyedVectors)
         (interesting_phrases : list string) (phrase : string) (number : Z),
    Forall (fun w => kv_get googledata_model w = None)
           (phrase_words stopwords phrase) ->
    (0 <= number <= Z.of_nat (length interesting_phrases))%Z ->
    sorted_vectors stopwords googledata_model interesting_phrases phrase
    = Py.Ok (map (fun k => (k, NaN)) (seq 0 (length interesting_phrases)))
    /\ get_comparisons stopwords googledata_model interesting_phrases
                       phrase number
       = Py.Ok (firstn (Z.to_nat number) interesting_phrases).
Proof.
  intros stopwords googledata_model interesting_phrases phrase number
         Hun Hn.
  split.
  - rewrite sorted_vectors_ok. now rewrite ranking_wordless_query.
  - rewrite get_comparisons_within by lia. f_equal.
    rewrite <- firstn_map. f_equal.
    rewrite ranking_wordless_query by exact Hun.
    rewrite map_map. apply phrases_of_seq.
Qed.

Lemma wordless_query_returns_corpus_order_witness :
  get_comparisons no_stopwords toy_model ["sad"; "zzz"; "happy"] "zzz qqq" 2
  = Py.Ok ["sad"; "zzz"].
Proof.
  apply (wordless_query_returns_corpus_order no_stopwords toy_model
           ["sad"; "zzz"; "happy"] "zzz qqq" 2).
  - repeat constructor.
  - simpl. lia.
Defined.



(** The stopword list has no effect on any answer. *)
Theorem stopwords_never_matter :
  forall (stopwords1 stopwords2 : string -> bool)
         (googledata_model : KeyedVectors)
         (interesting_phrases : list string) (phrase : string) (number : Z),
    get_comparisons stopwords1 googledata_model interesting_phrases
                    phrase number
    = get_comparisons stopwords2 googledata_model interesting_phrases
                      phrase number.
Proof.
  intros stopwords1 stopwords2 googledata_model interesting_phrases phrase
         number.
  assert (Hv : forall p, phrase_vector stopwords1 googledata_model p
                         = phrase_vector stopwords2 googledata_model p).
  { intros p. apply phrase_vector_words.
    now rewrite !phrase_words_split. }
  assert (Hr : ranking stopwords1 googledata_model interesting_phrases phrase
               = ranking stopwords2 googledata_model interesting_phrases
                         phrase).
  { unfold ranking, scores. rewrite (Hv phrase).
    now rewrite (map_ext _ _ Hv). }
  destruct (Z_le_gt_dec (Z.of_nat (Z.to_nat number))
                        (Z.of_nat (length interesting_phrases))) as [H|H].
  - rewrite !get_comparisons_within by lia. now rewrite Hr.
  - rewrite !get_comparisons_beyond by lia. reflexivity.
Qed.

Lemma unknown_phrase_never_excluded_witness :
  phrase_vector no_stopwords toy_model "zzz qqq" = Np.zeros 300
  /\ In (1, NaN)
        (ranking no_stopwords toy_model ["sad"; "zzz qqq"; "happy"] "happy")
  /\ exists output,
       get_comparisons no_stopwords toy_model ["sad"; "zzz qqq"; "happy"]
                       "happy" 3
       = Py.Ok output
       /\ Permutation output ["sad"; "zzz qqq"; "happy"]
       /\ In "zzz qqq" output.
Proof.
  apply (unknown_phrase_never_excluded no_stopwords toy_model
           ["sad"; "zzz qqq"; "happy"] "happy" "zzz qqq" 1).
  - reflexivity.
  - discriminate.
  - repeat constructor.
Defined.
